(* ===================================================================== *)
(*  atticlab/ripple, package data: the textual codec layer (json.go).     *)
(*                                                                       *)
(*  A shallow embedding of the codec methods and of the parts of the Go  *)
(*  standard library they call (regexp, encoding/hex, strconv), followed *)
(*  by the properties of the codec.                                      *)
(* ===================================================================== *)

From Stdlib Require Import ZArith Ascii String Lia.
From Stdlib Require Import DecimalString DecimalN DecimalPos DecimalFacts.
From stdpp Require Import base option list gmap strings.

Local Open Scope string_scope.
Local Open Scope Z_scope.

(* stdpp blocks the unfolding of the append of texts; the proofs below
   compute with it. *)
#[local] Arguments String.append : simpl nomatch.

(* --------------------------------------------------------------------- *)
(** * Outcomes of a Go call                                               *)
(* --------------------------------------------------------------------- *)

(** The errors of encoding/hex. *)
Inductive hex_error :=
| ErrLength                       (* hex.ErrLength: odd length hex string *)
| InvalidByteError (c : ascii).   (* hex.InvalidByteError *)

(** The errors of strconv ([*strconv.NumError]). *)
Inductive num_error :=
| ErrSyntax
| ErrRange.

(** Every [error] value a codec method of json.go can return.  The
    constructors of the first group are the [fmt.Errorf] sites of the
    file; the others are errors handed through from a callee. *)
Inductive error :=
| MissingTransactionType          (* Not a valid transaction with metadata: Missing TransactionType *)
| MissingHash                     (* Not a valid transaction with metadata: Missing Hash *)
| BadHash (hash : string)         (* Bad hash: %s *)
| UnknownTransactionType (s : string)   (* Unknown TransactionType: %s *)
| BadRippleTime (s : string)      (* Bad RippleTime:%s *)
| HexError (e : hex_error)        (* returned by hex.Decode / hex.DecodeString *)
| ParseError (s : string)         (* Value.Parse *)
| JsonError (msg : string)        (* encoding/json *)
| IncorrectVersion (v : Z)        (* Incorrect version for Account: %d *)
| ForeignError (msg : string).    (* any other collaborator *)

(** The error taxonomy of the codec layer. *)
Inductive error_class :=
| FormatError | MissingFieldError | UnknownIdentifierError
| VersionMismatchError | NumericParseError | StructuralDecodeError
| OtherError.

Definition class_of (e : error) : error_class :=
  match e with
  | MissingTransactionType | MissingHash => MissingFieldError
  | BadHash _ | HexError _ => FormatError
  | UnknownTransactionType _ => UnknownIdentifierError
  | BadRippleTime _ | ParseError _ => NumericParseError
  | JsonError _ => StructuralDecodeError
  | IncorrectVersion _ => VersionMismatchError
  | ForeignError _ => OtherError
  end.

(** Run-time panics of the Go runtime that the file can raise. *)
Inductive panic :=
| IndexOutOfRange (i len : Z)         (* a[i] with i outside [0, len) *)
| SliceBoundsOutOfRange (lo hi : Z)   (* a[lo:hi] with lo > hi or hi < 0 *)
| NilDereference.                     (* a call through a nil interface or of a nil function *)

Inductive outcome (A : Type) :=
| Ok (a : A)
| Err (e : error)
| Panic (p : panic).
Arguments Ok {A} a.
Arguments Err {A} e.
Arguments Panic {A} p.

(** What a call with a single result gives: the result, or a panic on
    the way (a nil function, an index outside an array).  No [error]
    comes out of such a call. *)
Inductive returned (A : Type) :=
| Returns (a : A)
| Panics (p : panic).
Arguments Returns {A} a.
Arguments Panics {A} p.

(** A method with a mutable receiver (or any mutable argument) of type
    [S]: it leaves a final state and an outcome.  An error or a panic
    stops the method; what it wrote before stays written. *)
Definition M (S A : Type) : Type := S → S * outcome A.

Definition ret {S A} (a : A) : M S A := λ s, (s, Ok a).
Definition throw {S A} (e : error) : M S A := λ s, (s, Err e).
Definition raise {S A} (p : panic) : M S A := λ s, (s, Panic p).
Definition bind {S A B} (m : M S A) (k : A → M S B) : M S B :=
  λ s, match m s with
       | (s', Ok a) => k a s'
       | (s', Err e) => (s', Err e)
       | (s', Panic p) => (s', Panic p)
       end.
Definition get {S} : M S S := λ s, (s, Ok s).
Definition put {S} (s : S) : M S unit := λ _, (s, Ok tt).
Definition modify {S} (f : S → S) : M S unit := λ s, (f s, Ok tt).
Definition lift {S A} (o : outcome A) : M S A := λ s, (s, o).

#[global] Instance M_ret {S} : MRet (M S) := λ A, @ret S A.
#[global] Instance M_bind {S} : MBind (M S) := λ A B k m, bind m k.

(* --------------------------------------------------------------------- *)
(** * Texts                                                               *)
(* --------------------------------------------------------------------- *)

(** A Go [string] and a [[]byte] are both sequences of bytes; the
    conversions [string(b)] and [[]byte(s)] copy and change nothing. *)

Definition quote : ascii := ascii_of_nat 34.
Definition newline : ascii := ascii_of_nat 10.

(** The one-character text of a double quote, and a text between two. *)
Definition dq : string := String quote "".
Definition quoted (s : string) : string := dq ++ s ++ dq.

(** JSON texts are written here with apostrophes in the place of the
    double quotes: [js] puts the double quotes back. *)
Fixpoint js (s : string) : string :=
  match s with
  | EmptyString => EmptyString
  | String c s' => String (if Ascii.eqb c "'" then quote else c) (js s')
  end.

Fixpoint occurs (c : ascii) (s : string) : bool :=
  match s with
  | EmptyString => false
  | String d s' => if Ascii.eqb c d then true else occurs c s'
  end.

(** [s[:len(s)-1]] for a non-empty [s]. *)
Fixpoint drop_last (s : string) : string :=
  match s with
  | EmptyString => EmptyString
  | String c EmptyString => EmptyString
  | String c s' => String c (drop_last s')
  end.

Fixpoint strip_prefix (p s : string) : option string :=
  match p with
  | EmptyString => Some s
  | String c p' =>
      match s with
      | String d s' => if Ascii.eqb c d then strip_prefix p' s' else None
      | EmptyString => None
      end
  end.

(** [p] occurs in [s] as a contiguous run of bytes. *)
Fixpoint contains (p s : string) : bool :=
  match strip_prefix p s with
  | Some _ => true
  | None => match s with
            | EmptyString => false
            | String _ s' => contains p s'
            end
  end.

Fixpoint take (n : nat) (s : string) : string :=
  match n, s with
  | S n', String c s' => String c (take n' s')
  | _, _ => EmptyString
  end.

(* --------------------------------------------------------------------- *)
(** * regexp: the fragment the file uses                                  *)
(* --------------------------------------------------------------------- *)

(** The three patterns of the file are built from literals, [.*],
    alternation and one capturing group.  Go's regexp returns the
    leftmost match and, among the matches that start there, the one a
    backtracking matcher finds first: a greedy [.*] takes as much as it
    can, an alternation prefers its left branch.  [.] matches every
    character but a newline. *)
Inductive regex :=
| Lit (l : string)
| AnyStar
| Alt (r1 r2 : regex)
| Cat (r1 r2 : regex)
| Group (r : regex).

(** Greedy [.*] in front of the continuation [k]: the longest run first. *)
Fixpoint any_star {R} (s : string) (k : string → option R) : option R :=
  match s with
  | String c s' =>
      if Ascii.eqb c newline then k s
      else match any_star s' k with
           | Some r => Some r
           | None => k s
           end
  | EmptyString => k s
  end.

(** [rmatch r s cap k]: match [r] at the front of [s] and go on with [k]
    on the rest; [cap] is the text of the capturing group so far. *)
Fixpoint rmatch {R} (r : regex) (s : string) (cap : string)
    (k : string → string → option R) : option R :=
  match r with
  | Lit l => match strip_prefix l s with
             | Some s' => k s' cap
             | None => None
             end
  | AnyStar => any_star s (λ s', k s' cap)
  | Alt r1 r2 => match rmatch r1 s cap k with
                 | Some x => Some x
                 | None => rmatch r2 s cap k
                 end
  | Cat r1 r2 => rmatch r1 s cap (λ s' cap', rmatch r2 s' cap' k)
  | Group r1 =>
      rmatch r1 s cap
        (λ s' _, k s' (take (String.length s - String.length s') s))
  end.

(** The match anchored at the front of [s]: submatch 1. *)
Definition match_here (r : regex) (s : string) : option string :=
  rmatch r s "" (λ _ cap, Some cap).

(** [re.FindAllStringSubmatch(s, 1)], as the file reads it, at [[0][1]]:
    submatch 1 of the leftmost match, [None] when the result is nil. *)
Fixpoint FindAllStringSubmatch (r : regex) (s : string) : option string :=
  match match_here r s with
  | Some c => Some c
  | None => match s with
            | String _ s' => FindAllStringSubmatch r s'
            | EmptyString => None
            end
  end.

(** The common tail of the first two patterns: a greedy run, a quote, a
    captured greedy run, a quote. *)
Definition quoted_tail : regex :=
  Cat AnyStar (Cat (Lit dq) (Cat (Group AnyStar) (Lit dq))).

(** The quoted key TransactionType and a colon, then [quoted_tail]. *)
Definition txmTransactionTypeRegex : regex :=
  Cat (Lit (quoted "TransactionType" ++ ":")) quoted_tail.

(** The quoted key hash and a colon, then [quoted_tail]. *)
Definition txmHashRegex : regex :=
  Cat (Lit (quoted "hash" ++ ":")) quoted_tail.

(** A quote, the captured alternation of meta and metaData, a quote. *)
Definition txmMetaTypeRegex : regex :=
  Cat (Lit dq) (Cat (Group (Alt (Lit "meta") (Lit "metaData"))) (Lit dq)).

(* --------------------------------------------------------------------- *)
(** * encoding/hex                                                        *)
(* --------------------------------------------------------------------- *)

(** A byte is a [Z] in [0, 256). *)
Definition byte_of (c : ascii) : Z := Z.of_N (N_of_ascii c).
Definition char_of (b : Z) : ascii := ascii_of_N (Z.to_N b).

(** [reverseHexTable]: the value of a hex digit, either case. *)
Definition fromHexChar (c : ascii) : option Z :=
  let n := byte_of c in
  if (48 <=? n) && (n <=? 57) then Some (n - 48)
  else if (97 <=? n) && (n <=? 102) then Some (n - 97 + 10)
  else if (65 <=? n) && (n <=? 70) then Some (n - 65 + 10)
  else None.

(** [hextable]: the digits 0 to 9, then a to f. *)
Definition hexdigit (n : Z) : ascii :=
  if n <? 10 then char_of (48 + n) else char_of (97 + (n - 10)).

(** [hex.EncodeToString] *)
Fixpoint hex_EncodeToString (bs : list Z) : string :=
  match bs with
  | [] => ""
  | b :: bs' =>
      String (hexdigit (Z.shiftr b 4))
        (String (hexdigit (Z.land b 15)) (hex_EncodeToString bs'))
  end.

(** [hex.DecodeString]: the bytes decoded before the end or before the
    first defect, and the error if there is one.  The destination is a
    buffer of its own, as long as the source. *)
Fixpoint hex_DecodeString (s : string) : list Z * option hex_error :=
  match s with
  | EmptyString => ([], None)
  | String p EmptyString =>
      match fromHexChar p with
      | None => ([], Some (InvalidByteError p))
      | Some _ => ([], Some ErrLength)
      end
  | String p (String q rest) =>
      match fromHexChar p with
      | None => ([], Some (InvalidByteError p))
      | Some a =>
          match fromHexChar q with
          | None => ([], Some (InvalidByteError q))
          | Some b =>
              let '(bs, e) := hex_DecodeString rest in
              (Z.lor (Z.shiftl a 4) b :: bs, e)
          end
      end
  end.

(** The heap of byte arrays: a fixed-size hash is a [[n]byte] array that
    lives at an address; a pointer receiver is the address, a value
    receiver is a copy of the array at a fresh address. *)
Abbreviation heap := (gmap positive (list Z)).

Definition alloc (a : list Z) : M heap positive :=
  λ σ, let l := fresh (dom σ) in (<[l := a]> σ, Ok l).

Definition load (l : positive) : M heap (list Z) :=
  λ σ, match σ !! l with
       | Some a => (σ, Ok a)
       | None => (σ, Panic NilDereference)
       end.

(** [dst[i] = v] on the array at [l]. *)
Definition store_index (l : positive) (i : nat) (v : Z) : M heap unit :=
  λ σ, match σ !! l with
       | Some a =>
           if decide (i < length a)%nat
           then (<[l := <[i := v]> a]> σ, Ok tt)
           else (σ, Panic (IndexOutOfRange (Z.of_nat i) (Z.of_nat (length a))))
       | None => (σ, Panic NilDereference)
       end.

(** [hex.Decode(dst, src)] with [dst] the whole array at [l]: the loop
    over the pairs of [src], writing [dst[i]] pair by pair, then the
    check of an odd length, in the order of the current standard library.
    It returns the number of bytes written. *)
Fixpoint hex_Decode (l : positive) (i : nat) (src : string) : M heap nat :=
  match src with
  | EmptyString => mret i
  | String p EmptyString =>
      match fromHexChar p with
      | None => throw (HexError (InvalidByteError p))
      | Some _ => throw (HexError ErrLength)
      end
  | String p (String q rest) =>
      match fromHexChar p with
      | None => throw (HexError (InvalidByteError p))
      | Some a =>
          match fromHexChar q with
          | None => throw (HexError (InvalidByteError q))
          | Some b =>
              store_index l i (Z.lor (Z.shiftl a 4) b) ;;
              hex_Decode l (S i) rest
          end
      end
  end.

(* --------------------------------------------------------------------- *)
(** * strconv                                                             *)
(* --------------------------------------------------------------------- *)

Definition maxUint64 : Z := 2 ^ 64 - 1.
Definition maxInt64 : Z := 2 ^ 63 - 1.
Definition minInt64 : Z := - 2 ^ 63.

(** Two's complement wrap-around of a 64-bit signed sum. *)
Definition wrap64 (z : Z) : Z := (z + 2 ^ 63) mod 2 ^ 64 - 2 ^ 63.

(** [strconv.FormatUint(n, 10)], also what [%d] prints for an unsigned
    integer. *)
Definition FormatUint (n : Z) : string :=
  NilEmpty.string_of_uint (N.to_uint (Z.to_N n)).

(** The digits of a decimal literal, without a range check: [None] on an
    empty text or on a character that is no decimal digit. *)
Definition parse_digits (s : string) : option Z :=
  match s with
  | EmptyString => None
  | _ => match NilEmpty.uint_of_string s with
         | Some d => Some (Z.of_N (N.of_uint d))
         | None => None
         end
  end.

(** [strconv.ParseUint(s, 10, 64)] *)
Definition ParseUint (s : string) : num_error + Z :=
  match parse_digits s with
  | None => inl ErrSyntax
  | Some n => if n <=? maxUint64 then inr n else inl ErrRange
  end.

(** [strconv.ParseInt(s, 10, 64)]: an optional sign, then digits. *)
Definition ParseInt (s : string) : num_error + Z :=
  let '(neg, digits) :=
    match s with
    | String "+" s' => (false, s')
    | String "-" s' => (true, s')
    | _ => (false, s)
    end in
  match parse_digits digits with
  | None => inl ErrSyntax
  | Some n =>
      if neg then (if n <=? 2 ^ 63 then inr (- n) else inl ErrRange)
      else (if n <=? maxInt64 then inr n else inl ErrRange)
  end.

(* --------------------------------------------------------------------- *)
(** * time                                                                *)
(* --------------------------------------------------------------------- *)

(** A [time.Time] built by [time.Unix(sec, 0)] is determined by its
    count of seconds since the Unix epoch, a signed 64-bit integer. *)
Record Time := time_Unix { Unix : Z }.

(** The UTC calendar reading of a [Time], for the texts of the form
    2000-01-01T00:00:00Z: the civil date of a day count since 1970-01-01
    in the proleptic Gregorian calendar, and the time of day. *)
Record utc := UTC {
  year : Z; month : Z; day : Z; hour : Z; minute : Z; second : Z }.

Definition civil_of_days (days : Z) : Z * Z * Z :=
  let z := days + 719468 in
  let era := z / 146097 in
  let doe := z - era * 146097 in
  let yoe := (doe - doe / 1460 + doe / 36524 - doe / 146096) / 365 in
  let doy := doe - (365 * yoe + yoe / 4 - yoe / 100) in
  let mp := (5 * doy + 2) / 153 in
  let d := doy - (153 * mp + 2) / 5 + 1 in
  let m := if mp <? 10 then mp + 3 else mp - 9 in
  let y := yoe + era * 400 + (if m <=? 2 then 1 else 0) in
  (y, m, d).

Definition UTC_of (t : Time) : utc :=
  let days := Unix t / 86400 in
  let secs := Unix t mod 86400 in
  let '(y, m, d) := civil_of_days days in
  UTC y m d (secs / 3600) (secs mod 3600 / 60) (secs mod 60).

(** Modelled from the spec: the constant [rippleEpoch], declared outside
    json.go; the spec gives the epoch offset as 946684800 seconds, the
    gap between the Unix epoch and the network epoch. *)
Definition rippleEpoch : Z := 946684800.

Definition RippleTime := Time.

(** [func (t *RippleTime) UnmarshalJSON(b []byte) error]; the sum
    [unix+rippleEpoch] is a sum of int64 and wraps around. *)
Definition RippleTime_UnmarshalJSON (b : string) : M RippleTime unit :=
  match ParseInt b with
  | inl _ => throw (BadRippleTime b)
  | inr unix => put (time_Unix (wrap64 (unix + rippleEpoch)))
  end.

(* --------------------------------------------------------------------- *)
(** * Fixed-size hashes                                                   *)
(* --------------------------------------------------------------------- *)

(** [Hash128], [Hash160] and [Hash256] are byte arrays of 16, 20 and 32
    bytes.  A method declared on [h Hash128] gets the array by value: the
    call copies the caller's array, and [h[:]] is a slice of the copy.  A
    method declared on [h *Hash256] gets the address of the caller's
    array. *)
Definition Hash128_size : nat := 16.
Definition Hash160_size : nat := 20.
Definition Hash256_size : nat := 32.

(** [func (h Hash128) UnmarshalText(b []byte) error] *)
Definition Hash128_UnmarshalText (h : positive) (b : string) : M heap unit :=
  a ← load h ;
  h' ← alloc a ;
  hex_Decode h' 0 b ;;
  mret tt.

(** [func (h Hash160) UnmarshalText(b []byte) error] *)
Definition Hash160_UnmarshalText (h : positive) (b : string) : M heap unit :=
  a ← load h ;
  h' ← alloc a ;
  hex_Decode h' 0 b ;;
  mret tt.

(** [func (h *Hash256) UnmarshalText(b []byte) error] *)
Definition Hash256_UnmarshalText (h : positive) (b : string) : M heap unit :=
  hex_Decode h 0 b ;;
  mret tt.

(* --------------------------------------------------------------------- *)
(** * Value and Amount                                                    *)
(* --------------------------------------------------------------------- *)

(** Modelled from the spec: the struct [Value], declared outside json.go;
    the spec gives it a sign, an unsigned magnitude, a decimal exponent
    and a Native flag.  json.go reads the fields [Native] and [Num]. *)
Record Value := mkValue {
  Native : bool;
  Negative : bool;
  Num : Z;        (* uint64 *)
  Offset : Z }.

(** [Value{}] *)
Definition Value_zero : Value := mkValue false false 0 0.

(** The native value of magnitude [m]. *)
Definition NativeValue (m : Z) : Value := mkValue true false m 0.

(** What [Value] and [Amount] take from outside json.go. *)
Class AmountPackage := {
  Currency : Type;
  (** [NewCurrency]: a currency and an error (or nil) *)
  NewCurrency : string → Currency * option error;
  (** [crypto.NewRippleHash]: the version and the payload of a base58
      address, from the address codec of package crypto *)
  crypto_NewRippleHash : string → outcome (Z * list Z);
  (** [crypto.RIPPLE_ACCOUNT_ID] *)
  RIPPLE_ACCOUNT_ID : Z;
  (** [func (v *Value) String() string], for a value that is not native *)
  Value_String : Value → string;
  (** the decimal parser: sign, mantissa and exponent of a decimal text *)
  parse_decimal : string → option (bool * Z * Z);
  (** [json.Unmarshal(b, &m)] for [var m map[string]string] *)
  json_Unmarshal_map : string → outcome (gmap string string);
}.

Section amount.
Context `{AmountPackage}.

(** Modelled from the spec: [Value.Parse], declared outside json.go.  For
    a native value the spec has the text parsed as an unsigned integer
    count of smallest native units; for an issued value it delegates to
    the decimal parser, which fails on malformed numerals. *)
Definition Value_Parse (s : string) : M Value unit :=
  v ← get ;
  if Native v then
    match ParseUint s with
    | inr n => put (mkValue true false n 0)
    | inl _ => throw (ParseError s)
    end
  else
    match parse_decimal s with
    | Some (neg, m, e) => put (mkValue false neg m e)
    | None => throw (ParseError s)
    end.

(** [func (v *Value) MarshalText() ([]byte, error)] *)
Definition Value_MarshalText (v : Value) : outcome string :=
  if Native v then Ok (FormatUint (Num v))
  else Ok (Value_String v).

(** [func (v *Value) UnmarshalText(b []byte) (err error)] *)
Definition Value_UnmarshalText (b : string) : M Value unit :=
  modify (λ v, mkValue true (Negative v) (Num v) (Offset v)) ;;
  Value_Parse b.

(** [Account] is a byte array of 20 bytes. *)
Definition Account := list Z.

(** The builtin [copy(dst, src)] on byte sequences: the first
    [min(len(dst), len(src))] bytes of [dst] are overwritten. *)
Definition copy (dst src : list Z) : list Z :=
  firstn (length dst) src ++ skipn (length src) dst.

(** [Amount] embeds a [*Value] next to a currency and an issuer; the
    first statement of [Amount.UnmarshalJSON] points it to a new value. *)
Record Amount := mkAmount {
  AValue : Value;
  ACurrency : Currency;
  AIssuer : Account }.

(** Run a method of a field on the struct that holds the field. *)
Definition zoom {S T A} (proj : S → T) (upd : T → S → S) (m : M T A)
    : M S A :=
  λ s, let '(t, o) := m (proj s) in (upd t s, o).

Definition on_Value {A} : M Value A → M Amount A :=
  zoom AValue (λ v a, mkAmount v (ACurrency a) (AIssuer a)).
Definition on_Currency {A} : M Currency A → M Amount A :=
  zoom ACurrency (λ c a, mkAmount (AValue a) c (AIssuer a)).
Definition on_Issuer {A} : M Account A → M Amount A :=
  zoom AIssuer (λ i a, mkAmount (AValue a) (ACurrency a) i).

(** [func (c *Currency) UnmarshalText(text []byte) error]: the result of
    [NewCurrency] is assigned, error or not. *)
Definition Currency_UnmarshalText (text : string) : M Currency unit :=
  let '(c, err) := NewCurrency text in
  put c ;;
  match err with
  | Some e => throw e
  | None => mret tt
  end.

(** [func (a *Account) UnmarshalText(text []byte) error] *)
Definition Account_UnmarshalText (text : string) : M Account unit :=
  tmp ← lift (crypto_NewRippleHash text) ;
  if negb (tmp.1 =? RIPPLE_ACCOUNT_ID) then throw (IncorrectVersion tmp.1)
  else modify (λ a, copy a tmp.2).

(** [m[key]] on a [map[string]string]: the empty text for a missing key. *)
Definition index (m : gmap string string) (key : string) : string :=
  default "" (m !! key).

(** The slice expression [b[lo:hi]]; it panics unless
    [0 <= lo <= hi <= len(b)]. *)
Definition slice {S} (b : string) (lo hi : Z) : M S string :=
  if (0 <=? lo) && (lo <=? hi) && (hi <=? Z.of_nat (String.length b))
  then mret (substring (Z.to_nat lo) (Z.to_nat (hi - lo)) b)
  else raise (SliceBoundsOutOfRange lo hi).

(** [func (a *Amount) UnmarshalJSON(b []byte) (err error)] *)
Definition Amount_UnmarshalJSON (b : string) : M Amount unit :=
  on_Value (put Value_zero) ;;
  (* Try interpret as IOU *)
  match json_Unmarshal_map b with
  | Ok m =>
      on_Currency (Currency_UnmarshalText (index m "currency")) ;;
      on_Value (modify (λ v, mkValue false (Negative v) (Num v) (Offset v))) ;;
      on_Value (Value_Parse (index m "value")) ;;
      on_Issuer (Account_UnmarshalText (index m "issuer"))
  | Panic p => raise p
  | Err _ =>
      (* Interpret as XRP in drips *)
      inner ← slice b 1 (Z.of_nat (String.length b) - 1) ;
      on_Value (Value_UnmarshalText inner)
  end.

End amount.

(* --------------------------------------------------------------------- *)
(** * The transaction-with-metadata envelope                              *)
(* --------------------------------------------------------------------- *)

(** [TransactionWithMetaData]: the [Transaction] interface value (nil or
    a concrete transaction), the execution metadata and the ledger
    sequence number (uint32). *)
Record TransactionWithMetaData (Tx MetaData : Type) := mkTxm {
  Transaction : option Tx;
  MetaData_of : MetaData;
  LedgerSequence : Z }.
Arguments mkTxm {Tx MetaData}.
Arguments Transaction {Tx MetaData}.
Arguments MetaData_of {Tx MetaData}.
Arguments LedgerSequence {Tx MetaData}.

(** What the envelope codec takes from outside json.go: the concrete
    transactions and the metadata of package data with their structural
    JSON coding by encoding/json, the table of type names and the
    constructors behind the transaction factory, and the hash accessors
    of the envelope. *)
Class TransactionPackage := {
  Tx : Type;
  MetaData : Type;
  (** [MetaData{}] *)
  MetaData_zero : MetaData;
  (** [txTypes]: the codes of the registered type names *)
  txTypes : gmap string Z;
  (** [TxFactory]: the empty transaction of a type code *)
  TxFactory : Z → Tx;
  (** [GetTxFactoryByType(name)()] for a name outside the table: the
      call has a single result, so it hands back some transaction or it
      panics *)
  TxFactory_other : string → returned Tx;
  (** [SetHash(h)] of the [Transaction] interface: the envelope calls
      it through the embedded transaction *)
  SetHash : list Z → Tx → Tx;
  (** [Hash()] of the [Transaction] interface, a Hash256 *)
  Hash : Tx → list Z;
  (** [json.Marshal(txm.Transaction)] *)
  json_Marshal_Transaction : option Tx → outcome string;
  (** [json.Marshal(txm.MetaData)] *)
  json_Marshal_MetaData : MetaData → outcome string;
  (** [json.Unmarshal(b, txm.Transaction)] *)
  json_Unmarshal_Transaction : string → M Tx unit;
  (** [json.Unmarshal(b, ( *txmNormal)(txm))] *)
  json_Unmarshal_txmNormal :
    string → M (TransactionWithMetaData Tx MetaData) unit;
  (** [json.Unmarshal(b, &meta)] for [var meta txmLedger], then
      [meta.MetaData] *)
  json_Unmarshal_txmLedger : string → outcome MetaData;
}.

#[global] Instance outcome_ret : MRet outcome := λ A, @Ok A.
#[global] Instance outcome_bind : MBind outcome := λ A B k o,
  match o with
  | Ok a => k a
  | Err e => Err e
  | Panic p => Panic p
  end.

Section envelope.
Context `{TransactionPackage}.

Abbreviation txm_t := (TransactionWithMetaData Tx MetaData).

(** [TransactionWithMetaData{}] *)
Definition txm_zero : txm_t := mkTxm None MetaData_zero 0.

(** Modelled from the spec: [GetTxFactoryByType(txType)()], declared
    outside json.go.  The call in [UnmarshalJSON] takes one value and
    checks no error: the factory hands back a transaction or panics.  For
    a registered name the spec has it make the empty transaction of the
    type; what it does with any other name is the parameter
    [TxFactory_other]. *)
Definition GetTxFactoryByType (txType : string) : returned Tx :=
  match txTypes !! txType with
  | Some t => Returns (TxFactory t)
  | None => TxFactory_other txType
  end.

(** The state of a decode: the receiver [txm], and the type names the
    transaction factory has been called with, last call first. *)
Record decoding := mkDecoding {
  txm : txm_t;
  factory_calls : list string }.

Definition on_txm {A} : M txm_t A → M decoding A :=
  zoom txm (λ t d, mkDecoding t (factory_calls d)).

(** The call [GetTxFactoryByType(txType)()]: it is noted, and its single
    result is handed on; a panic of the factory ends the decode. *)
Definition call_factory (txType : string) : M decoding Tx :=
  modify (λ d, mkDecoding (txm d) (txType :: factory_calls d)) ;;
  match GetTxFactoryByType txType with
  | Returns tx => mret tx
  | Panics p => raise p
  end.

(** [txm.SetHash(h)]: a method call through the embedded interface; it
    panics on a nil interface. *)
Definition txm_SetHash (h : list Z) : M txm_t unit :=
  λ t, match Transaction t with
       | Some tx =>
           (mkTxm (Some (SetHash h tx)) (MetaData_of t) (LedgerSequence t),
            Ok tt)
       | None => (t, Panic NilDereference)
       end.

(** [txm.Hash()] *)
Definition txm_Hash (t : txm_t) : outcome (list Z) :=
  match Transaction t with
  | Some tx => Ok (Hash tx)
  | None => Panic NilDereference
  end.

(** [json.Unmarshal(b, txm.Transaction)] on the receiver. *)
Definition unmarshal_Transaction (b : string) : M txm_t unit :=
  λ t, match Transaction t with
       | Some tx =>
           let '(tx', o) := json_Unmarshal_Transaction b tx in
           (mkTxm (Some tx') (MetaData_of t) (LedgerSequence t), o)
       | None => (t, Err (JsonError "json: Unmarshal(nil)"))
       end.

(** [func (txm *TransactionWithMetaData) UnmarshalJSON(b []byte) error] *)
Definition TransactionWithMetaData_UnmarshalJSON (b : string)
    : M decoding unit :=
  let txTypeMatch := FindAllStringSubmatch txmTransactionTypeRegex b in
  let hashMatch := FindAllStringSubmatch txmHashRegex b in
  let metaTypeMatch := FindAllStringSubmatch txmMetaTypeRegex b in
  match txTypeMatch with
  | None => throw MissingTransactionType
  | Some txType =>
  match hashMatch with
  | None => throw MissingHash
  | Some hash =>
  let metaType := default "" metaTypeMatch in
  (* txm.Transaction = GetTxFactoryByType(txType)() *)
  tx ← call_factory txType ;
  on_txm (modify (λ t, mkTxm (Some tx) (MetaData_of t) (LedgerSequence t))) ;;
  match hex_DecodeString hash with
  | (_, Some _) => throw (BadHash hash)
  | (h, None) =>
      on_txm (txm_SetHash h) ;;
      on_txm (unmarshal_Transaction b) ;;
      if String.eqb metaType "meta" then
        on_txm (json_Unmarshal_txmNormal b)
      else if String.eqb metaType "metaData" then
        meta ← lift (json_Unmarshal_txmLedger b) ;
        on_txm (modify (λ t, mkTxm (Transaction t) meta (LedgerSequence t)))
      else mret tt
  end
  end
  end.

(** Decoding into a receiver, with no call of the factory made yet. *)
Definition decode (b : string) (t : txm_t) : decoding * outcome unit :=
  TransactionWithMetaData_UnmarshalJSON b (mkDecoding t []).

(** Modelled from the spec: [Hash256.String], declared outside json.go;
    the spec has the content hash rendered as lowercase hex, 64
    characters for the 32 bytes. *)
Definition Hash256_String (h : list Z) : string := hex_EncodeToString h.

(** [fmt.Sprintf(txmFormat, tx, hash, seq, seq, meta)] with [txmFormat]
    the text: %s, then the key hash with a quoted %s, the key inLedger
    with %d, the key ledger_index with %d, the key meta with %s, and a
    closing brace. *)
Definition Sprintf_txmFormat (tx hash : string) (n1 n2 : Z) (meta : string)
    : string :=
  tx ++ "," ++ quoted "hash" ++ ":" ++ quoted hash
     ++ "," ++ quoted "inLedger" ++ ":" ++ FormatUint n1
     ++ "," ++ quoted "ledger_index" ++ ":" ++ FormatUint n2
     ++ "," ++ quoted "meta" ++ ":" ++ meta ++ "}".

(** [tx[:len(tx)-1]]; it panics on an empty [tx]. *)
Definition but_last (tx : string) : outcome string :=
  match tx with
  | EmptyString => Panic (SliceBoundsOutOfRange 0 (-1))
  | _ => Ok (drop_last tx)
  end.

(** [func (txm TransactionWithMetaData) MarshalJSON() ([]byte, error)] *)
Definition TransactionWithMetaData_MarshalJSON (t : txm_t) : outcome string :=
  tx ← json_Marshal_Transaction (Transaction t) ;
  meta ← json_Marshal_MetaData (MetaData_of t) ;
  body ← but_last tx ;
  h ← txm_Hash t ;
  Ok (Sprintf_txmFormat body (Hash256_String h)
        (LedgerSequence t) (LedgerSequence t) meta).

End envelope.

Abbreviation txm_t := (TransactionWithMetaData Tx MetaData).

(* --------------------------------------------------------------------- *)
(** * A small instance of the collaborators                               *)
(* --------------------------------------------------------------------- *)

(** An instance on which the codec runs: transactions with an account
    and a type, metadata with a result name, and a reader of JSON texts
    for them.  The reader covers objects, arrays, texts with the simple
    escapes, numbers and the three literals; it is an instance of the
    parameters above, not a model of the whole of encoding/json. *)
Module Demo.

#[local] Unset Elimination Schemes.
Inductive json :=
| JNull
| JBool (b : bool)
| JNumber (text : string)
| JString (s : string)
| JArray (items : list json)
| JObject (fields : list (string * json)).
#[local] Set Elimination Schemes.

Definition is_ws (c : ascii) : bool :=
  let n := byte_of c in (n =? 32) || (n =? 9) || (n =? 10) || (n =? 13).

Fixpoint skip_ws (s : string) : string :=
  match s with
  | String c s' => if is_ws c then skip_ws s' else s
  | EmptyString => s
  end.

Definition unescape (c : ascii) : option ascii :=
  let n := byte_of c in
  if (n =? 34) || (n =? 92) || (n =? 47) then Some c
  else if n =? 110 then Some newline
  else if n =? 116 then Some (ascii_of_nat 9)
  else if n =? 114 then Some (ascii_of_nat 13)
  else if n =? 98 then Some (ascii_of_nat 8)
  else if n =? 102 then Some (ascii_of_nat 12)
  else None.

(** The text after an opening quote, up to the closing one. *)
Fixpoint read_string (s : string) : option (string * string) :=
  match s with
  | EmptyString => None
  | String c s' =>
      if Ascii.eqb c quote then Some ("", s')
      else if byte_of c =? 92 then
        match s' with
        | String e s'' =>
            match unescape e, read_string s'' with
            | Some d, Some (str, rest) => Some (String d str, rest)
            | _, _ => None
            end
        | EmptyString => None
        end
      else if byte_of c <? 32 then None
      else match read_string s' with
           | Some (str, rest) => Some (String c str, rest)
           | None => None
           end
  end.

Definition is_number_char (c : ascii) : bool :=
  let n := byte_of c in
  ((48 <=? n) && (n <=? 57)) || (n =? 45) || (n =? 43) || (n =? 46)
  || (n =? 101) || (n =? 69).

Fixpoint read_number (s : string) : string * string :=
  match s with
  | String c s' =>
      if is_number_char c
      then let '(d, rest) := read_number s' in (String c d, rest)
      else ("", s)
  | EmptyString => ("", s)
  end.

Definition read_literal (s : string) : option (json * string) :=
  match strip_prefix "null" s with
  | Some r => Some (JNull, r)
  | None =>
  match strip_prefix "true" s with
  | Some r => Some (JBool true, r)
  | None =>
  match strip_prefix "false" s with
  | Some r => Some (JBool false, r)
  | None =>
      match read_number s with
      | (EmptyString, _) => None
      | (d, r) => Some (JNumber d, r)
      end
  end end end.

Fixpoint read_value (fuel : nat) (s : string) : option (json * string) :=
  match fuel with
  | O => None
  | S n =>
      match skip_ws s with
      | EmptyString => None
      | String c s' =>
          if Ascii.eqb c "{" then
            match skip_ws s' with
            | String "}" r => Some (JObject [], r)
            | _ => match read_members n s' with
                   | Some (fs, r) => Some (JObject fs, r)
                   | None => None
                   end
            end
          else if Ascii.eqb c "[" then
            match skip_ws s' with
            | String "]" r => Some (JArray [], r)
            | _ => match read_items n s' with
                   | Some (vs, r) => Some (JArray vs, r)
                   | None => None
                   end
            end
          else if Ascii.eqb c quote then
            match read_string s' with
            | Some (str, r) => Some (JString str, r)
            | None => None
            end
          else read_literal (String c s')
      end
  end
with read_members (fuel : nat) (s : string)
    : option (list (string * json) * string) :=
  match fuel with
  | O => None
  | S n =>
      match skip_ws s with
      | String c s1 =>
          if Ascii.eqb c quote then
            match read_string s1 with
            | Some (k, s2) =>
                match skip_ws s2 with
                | String ":" s3 =>
                    match read_value n s3 with
                    | Some (v, s4) =>
                        match skip_ws s4 with
                        | String "," s5 =>
                            match read_members n s5 with
                            | Some (fs, s6) => Some ((k, v) :: fs, s6)
                            | None => None
                            end
                        | String "}" s5 => Some ([(k, v)], s5)
                        | _ => None
                        end
                    | None => None
                    end
                | _ => None
                end
            | None => None
            end
          else None
      | EmptyString => None
      end
  end
with read_items (fuel : nat) (s : string) : option (list json * string) :=
  match fuel with
  | O => None
  | S n =>
      match read_value n s with
      | Some (v, s1) =>
          match skip_ws s1 with
          | String "," s2 =>
              match read_items n s2 with
              | Some (vs, s3) => Some (v :: vs, s3)
              | None => None
              end
          | String "]" s2 => Some ([v], s2)
          | _ => None
          end
      | None => None
      end
  end.

Definition read_json (s : string) : option json :=
  match read_value (S (String.length s)) s with
  | Some (v, rest) =>
      match skip_ws rest with
      | EmptyString => Some v
      | _ => None
      end
  | None => None
  end.

(** The last field of a name wins, as in encoding/json. *)
Fixpoint field (k : string) (fs : list (string * json)) : option json :=
  match fs with
  | [] => None
  | (k', v) :: fs' =>
      match field k fs' with
      | Some v' => Some v'
      | None => if String.eqb k k' then Some v else None
      end
  end.

Definition syntax_error {A} : outcome A := Err (JsonError "syntax error").
Definition type_error {A} : outcome A := Err (JsonError "cannot unmarshal").

(** [json.Unmarshal] into a [map[string]string]. *)
Fixpoint strings_of (fs : list (string * json))
    : outcome (gmap string string) :=
  match fs with
  | [] => Ok ∅
  | (k, v) :: fs' =>
      match strings_of fs', v with
      | Ok m, JString s =>
          Ok (match m !! k with Some _ => m | None => <[k := s]> m end)
      | Ok m, JNull =>
          Ok (match m !! k with Some _ => m | None => <[k := ""]> m end)
      | Ok _, _ => type_error
      | o, _ => o
      end
  end.

Definition unmarshal_map (b : string) : outcome (gmap string string) :=
  match read_json b with
  | None => syntax_error
  | Some JNull => Ok ∅
  | Some (JObject fs) => strings_of fs
  | Some _ => type_error
  end.

(** Transactions: a type code, the content hash and an account. *)
Record tx := mkTx { TransactionType : Z; hash : list Z; Account : string }.

(** Metadata: the name of the transaction result. *)
Record meta := mkMeta { TransactionResult : string }.

Definition types : gmap string Z :=
  <["Payment" := 0]> (<["AccountSet" := 3]> (<["OfferCreate" := 7]> ∅)).

Definition name_of (code : Z) : string :=
  if code =? 0 then "Payment"
  else if code =? 3 then "AccountSet"
  else if code =? 7 then "OfferCreate"
  else "".

Definition zero_hash : list Z := repeat 0 Hash256_size.

Definition factory (code : Z) : tx := mkTx code zero_hash "".

Abbreviation envelope := (TransactionWithMetaData tx meta).

Definition set_hash (h : list Z) (x : tx) : tx :=
  mkTx (TransactionType x) (copy (hash x) h) (Account x).

Definition marshal_tx (t : option tx) : outcome string :=
  match t with
  | None => Ok "null"
  | Some x =>
      Ok ("{" ++ quoted "Account" ++ ":" ++ quoted (Account x) ++ ","
              ++ quoted "TransactionType" ++ ":"
              ++ quoted (name_of (TransactionType x)) ++ "}")
  end.

Definition marshal_meta (m : meta) : outcome string :=
  Ok ("{" ++ quoted "TransactionResult" ++ ":"
          ++ quoted (TransactionResult m) ++ "}").

(** [func (t *TransactionType) UnmarshalText(b []byte) error] of json.go,
    on the table of the instance. *)
Definition TransactionType_UnmarshalText (b : string) : M Z unit :=
  match types !! b with
  | Some txType => put txType
  | None => throw (UnknownTransactionType b)
  end.

Definition unmarshal_tx_fields (fs : list (string * json)) : M tx unit :=
  (match field "TransactionType" fs with
   | Some (JString s) =>
       zoom TransactionType (λ c x, mkTx c (hash x) (Account x))
         (TransactionType_UnmarshalText s)
   | Some JNull | None => mret tt
   | Some _ => lift type_error
   end) ;;
  match field "Account" fs with
  | Some (JString s) => modify (λ x, mkTx (TransactionType x) (hash x) s)
  | Some JNull | None => mret tt
  | Some _ => lift type_error
  end.

Definition unmarshal_tx (b : string) : M tx unit :=
  match read_json b with
  | None => lift syntax_error
  | Some JNull => mret tt
  | Some (JObject fs) => unmarshal_tx_fields fs
  | Some _ => lift type_error
  end.

Definition meta_of_json (v : option json) (old : meta) : outcome meta :=
  match v with
  | None | Some JNull => Ok old
  | Some (JObject fs) =>
      match field "TransactionResult" fs with
      | Some (JString s) => Ok (mkMeta s)
      | Some JNull | None => Ok old
      | Some _ => type_error
      end
  | Some _ => type_error
  end.

Definition meta_zero : meta := mkMeta "tesSUCCESS".

Definition unmarshal_txmLedger (b : string) : outcome meta :=
  match read_json b with
  | None => syntax_error
  | Some JNull => Ok meta_zero
  | Some (JObject fs) => meta_of_json (field "metaData" fs) meta_zero
  | Some _ => type_error
  end.

Definition unmarshal_txmNormal (b : string) : M envelope unit :=
  match read_json b with
  | None => lift syntax_error
  | Some JNull => mret tt
  | Some (JObject fs) =>
      t ← get ;
      m ← lift (meta_of_json (field "meta" fs) (MetaData_of t)) ;
      match field "ledger_index" fs with
      | Some (JNumber d) =>
          match ParseUint d with
          | inr n => put (mkTxm (Transaction t) m n)
          | inl _ => lift type_error
          end
      | Some JNull | None => put (mkTxm (Transaction t) m (LedgerSequence t))
      | Some _ => lift type_error
      end
  | Some _ => lift type_error
  end.

(** The collaborators of the instance.  Its factory makes the transaction
    of the code 0 for a name outside the table, as a lookup of the code
    in a Go map, which gives zero for a missing key, would. *)
#[global] Instance package : TransactionPackage := {|
  Tx := tx;
  MetaData := meta;
  MetaData_zero := meta_zero;
  txTypes := types;
  TxFactory := factory;
  TxFactory_other := λ _, Returns (factory 0);
  SetHash := set_hash;
  Hash := hash;
  json_Marshal_Transaction := marshal_tx;
  json_Marshal_MetaData := marshal_meta;
  json_Unmarshal_Transaction := unmarshal_tx;
  json_Unmarshal_txmNormal := unmarshal_txmNormal;
  json_Unmarshal_txmLedger := unmarshal_txmLedger;
|}.

(** The same collaborators with a factory that has no function for a
    name outside the table: calling it panics. *)
Definition package_nil : TransactionPackage := {|
  Tx := tx;
  MetaData := meta;
  MetaData_zero := meta_zero;
  txTypes := types;
  TxFactory := factory;
  TxFactory_other := λ _, Panics NilDereference;
  SetHash := set_hash;
  Hash := hash;
  json_Marshal_Transaction := marshal_tx;
  json_Marshal_MetaData := marshal_meta;
  json_Unmarshal_Transaction := unmarshal_tx;
  json_Unmarshal_txmNormal := unmarshal_txmNormal;
  json_Unmarshal_txmLedger := unmarshal_txmLedger;
|}.

(** Amounts of the instance: currencies are three-letter codes, the
    address codec knows no address, issued values are not parsed. *)
#[global] Instance amounts : AmountPackage := {|
  Currency := string;
  NewCurrency := λ s,
    if (String.length s =? 3)%nat then (s, None)
    else ("", Some (ForeignError "bad currency"));
  crypto_NewRippleHash := λ s, Err (ForeignError "bad address");
  RIPPLE_ACCOUNT_ID := 0;
  Value_String := λ v, FormatUint (Num v);
  parse_decimal := λ s, None;
  json_Unmarshal_map := unmarshal_map;
|}.

(** Payloads with one field on a line, and what they decode to. *)

Definition h64 : string :=
  "00112233445566778899AABBCCDDEEFF00112233445566778899aabbccddeeff".

Definition h32 : list Z :=
  [0; 17; 34; 51; 68; 85; 102; 119; 136; 153; 170; 187; 204; 221; 238; 255;
   0; 17; 34; 51; 68; 85; 102; 119; 136; 153; 170; 187; 204; 221; 238; 255].

Definition alice : tx := mkTx 0 h32 "rAlice".

(** The metadata nested under the key metaData. *)
Definition payload_metaData : string := js
"{
  'Account': 'rAlice',
  'TransactionType': 'Payment',
  'hash': '00112233445566778899AABBCCDDEEFF00112233445566778899aabbccddeeff',
  'metaData': {'TransactionResult': 'tecPATH_DRY'}
}".

(** The metadata flat under the key meta, next to the ledger index. *)
Definition payload_meta : string := js
"{
  'Account': 'rAlice',
  'TransactionType': 'Payment',
  'hash': '00112233445566778899AABBCCDDEEFF00112233445566778899aabbccddeeff',
  'ledger_index': 7,
  'meta': {'TransactionResult': 'tecPATH_DRY'}
}".

(** No metadata. *)
Definition payload_plain : string := js
"{
  'Account': 'rAlice',
  'TransactionType': 'Payment',
  'hash': '00112233445566778899AABBCCDDEEFF00112233445566778899aabbccddeeff'
}".




(** A payload of one line that ends with the hash: the scans take the
    hash for the type as well. *)
Definition payload_hash_last : string := js
"{'TransactionType':'Payment','hash':'00112233445566778899AABBCCDDEEFF00112233445566778899aabbccddeeff'}".

(** The fields of [payload_metaData] on one line. *)
Definition payload_metaData_line : string := js
"{'Account':'rAlice','TransactionType':'Payment','hash':'00112233445566778899AABBCCDDEEFF00112233445566778899aabbccddeeff','metaData':{'TransactionResult':'tecPATH_DRY'}}".

(** No type at all. *)
Definition payload_no_type : string := js "{'hash':'00'}".

(** A hash of one byte, and a hash with a character that is no hex
    digit. *)
Definition payload_short_hash : string := js
"{
  'TransactionType': 'Payment',
  'hash': '00'
}".

Definition payload_bad_hash : string := js
"{
  'TransactionType': 'Payment',
  'hash': '0g'
}".

(** The envelope that [payload_meta] decodes to, and its encoding. *)
Definition alice_envelope : envelope :=
  mkTxm (Some alice) (mkMeta "tecPATH_DRY") 7.

Definition alice_encoded : string := js
"{'Account':'rAlice','TransactionType':'Payment','hash':'00112233445566778899aabbccddeeff00112233445566778899aabbccddeeff','inLedger':7,'ledger_index':7,'meta':{'TransactionResult':'tecPATH_DRY'}}".

(** The envelope that [payload_metaData] decodes to, and its encoding. *)
Definition alice_nested : envelope :=
  mkTxm (Some alice) (mkMeta "tecPATH_DRY") 0.

Definition alice_nested_encoded : string := js
"{'Account':'rAlice','TransactionType':'Payment','hash':'00112233445566778899aabbccddeeff00112233445566778899aabbccddeeff','inLedger':0,'ledger_index':0,'meta':{'TransactionResult':'tecPATH_DRY'}}".

(** A heap with one hash of each size, all bytes zero. *)
Definition hashes : heap :=
  <[1%positive := repeat 0 Hash128_size]>
    (<[2%positive := repeat 0 Hash160_size]>
       (<[3%positive := repeat 0 Hash256_size]> ∅)).

Definition amount_zero : Amount := mkAmount Value_zero "XRP" [].

End Demo.

(* --------------------------------------------------------------------- *)
(** * Predicates of the statements                                        *)
(* --------------------------------------------------------------------- *)

Definition is_hex_digit (c : ascii) : bool :=
  match fromHexChar c with Some _ => true | None => false end.

(** Every character of the text is a hex digit. *)
Fixpoint all_hex (s : string) : bool :=
  match s with
  | EmptyString => true
  | String c s' => is_hex_digit c && all_hex s'
  end.

(** A text that [hex.DecodeString] refuses: one of odd length or with a
    character that is no hex digit. *)
Definition malformed_hex (s : string) : Prop :=
  Nat.odd (String.length s) = true ∨ all_hex s = false.

(** The digits of lowercase hex: 0 to 9 and a to f. *)
Definition is_lower_hex_digit (c : ascii) : bool :=
  let n := byte_of c in
  ((48 <=? n) && (n <=? 57)) || ((97 <=? n) && (n <=? 102)).

Fixpoint all_lower_hex (s : string) : bool :=
  match s with
  | EmptyString => true
  | String c s' => is_lower_hex_digit c && all_lower_hex s'
  end.

(** The elements of a byte array are bytes. *)
Definition is_bytes (l : list Z) : Prop := Forall (λ b, 0 <= b < 256) l.

(** A text on one line. *)
Definition one_line (s : string) : Prop := occurs newline s = false.

(** The text ends with a closing brace, [body] being the rest. *)
Definition closes (tx body : string) : Prop := tx = body ++ "}".

(* --------------------------------------------------------------------- *)
(** * The other codecs of json.go                                         *)
(* --------------------------------------------------------------------- *)

Section hex_texts.

(** [b2h], declared outside json.go: the hex text of a byte sequence. *)
Variable b2h : list Z → string.

(** [func (h Hash128) MarshalText() ([]byte, error)]; the receiver is a
    copy of the caller's array. *)
Definition Hash128_MarshalText (h : positive) : M heap string :=
  a ← load h ;
  h' ← alloc a ;
  a' ← load h' ;
  mret (b2h a').

(** [func (h Hash160) MarshalText() ([]byte, error)] *)
Definition Hash160_MarshalText (h : positive) : M heap string :=
  a ← load h ;
  h' ← alloc a ;
  a' ← load h' ;
  mret (b2h a').

(** [func (h Hash256) MarshalText() ([]byte, error)] *)
Definition Hash256_MarshalText (h : positive) : M heap string :=
  a ← load h ;
  h' ← alloc a ;
  a' ← load h' ;
  mret (b2h a').

(** [func (p PublicKey) MarshalText() ([]byte, error)] *)
Definition PublicKey_MarshalText (p : positive) : M heap string :=
  a ← load p ;
  p' ← alloc a ;
  a' ← load p' ;
  mret (b2h a').

(** [func (v VariableLength) MarshalText() ([]byte, error)]; a
    [VariableLength] is a byte slice. *)
Definition VariableLength_MarshalText (v : list Z) : outcome string :=
  Ok (b2h v).

End hex_texts.

(** [func (v *VariableLength) UnmarshalText(b []byte) error]: the result
    of [hex.DecodeString] is assigned, error or not. *)
Definition VariableLength_UnmarshalText (b : string) : M (list Z) unit :=
  let '(bs, err) := hex_DecodeString b in
  put bs ;;
  match err with
  | Some e => throw (HexError e)
  | None => mret tt
  end.

(** [func (p *PublicKey) UnmarshalText(b []byte) error] *)
Definition PublicKey_UnmarshalText (p : positive) (b : string) : M heap unit :=
  hex_Decode p 0 b ;;
  mret tt.

Section amount_encode.
Context `{AmountPackage}.

(** [json.Marshal(amountJSON{a.Value, a.Currency, a.Issuer})] *)
Variable json_Marshal_amountJSON : Value → Currency → Account → outcome string.

(** [func (a *Amount) MarshalJSON() ([]byte, error)] *)
Definition Amount_MarshalJSON (a : Amount) : outcome string :=
  if Native (AValue a) then Ok (quoted (FormatUint (Num (AValue a))))
  else json_Marshal_amountJSON (AValue a) (ACurrency a) (AIssuer a).

End amount_encode.

(** The text is empty, or it starts with a newline: the end of a line. *)
Definition line_end (s : string) : Prop :=
  s = "" ∨ ∃ post, s = String newline post.

(** A text without a quote and without a newline. *)
Definition plain (s : string) : Prop :=
  occurs quote s = false ∧ occurs newline s = false.

(** A decimal digit. *)
Definition is_digit (c : ascii) : bool :=
  (48 <=? byte_of c) && (byte_of c <=? 57).

(** Instances for the examples of the codecs above: the address codec
    knows one address, of the account version, and one of another
    version. *)
Module Demo2.

Definition payload20 : list Z := repeat 7 20.

Definition address_codec (s : string) : outcome (Z * list Z) :=
  if String.eqb s "rAlice" then Ok (0, payload20)
  else if String.eqb s "nNode" then Ok (28, payload20)
  else Err (ForeignError "bad address").

Definition amounts : AmountPackage := {|
  Currency := string;
  NewCurrency := λ s,
    if (String.length s =? 3)%nat then (s, None)
    else ("", Some (ForeignError "bad currency"));
  crypto_NewRippleHash := address_codec;
  RIPPLE_ACCOUNT_ID := 0;
  Value_String := λ v, FormatUint (Num v);
  parse_decimal := λ s, None;
  json_Unmarshal_map := Demo.unmarshal_map;
|}.

(** A heap with two hashes of each kind: the sources hold the bytes 0 to
    15, 0 to 19 and 0 to 31, the targets hold zeros. *)
Definition bytes_upto (n : nat) : list Z := Z.of_nat <$> seq 0 n.

Definition hashes : heap :=
  <[1%positive := bytes_upto Hash128_size]>
    (<[2%positive := bytes_upto Hash160_size]>
       (<[3%positive := bytes_upto Hash256_size]>
          (<[4%positive := repeat 0 Hash128_size]>
             (<[5%positive := repeat 0 Hash160_size]>
                (<[6%positive := repeat 0 Hash256_size]> ∅))))).

End Demo2.

(* ===================================================================== *)
(** * Properties                                                          *)
(* ===================================================================== *)

(** ** Texts *)

Lemma app_assoc' (a b c : string) : (a ++ b) ++ c = a ++ (b ++ c).
Proof. induction a as [|x a IH]; simpl; congruence. Qed.

Lemma length_app (a b : string) :
  String.length (a ++ b) = (String.length a + String.length b)%nat.
Proof. induction a as [|x a IH]; simpl; congruence. Qed.

Lemma strip_prefix_app (p s : string) : strip_prefix p (p ++ s) = Some s.
Proof.
  induction p as [|c p IH]; simpl; [done |].
  by rewrite Ascii.eqb_refl.
Qed.

Lemma strip_prefix_Some (p s r : string) :
  strip_prefix p s = Some r → s = p ++ r.
Proof.
  revert s. induction p as [|c p IH]; intros s; simpl.
  - congruence.
  - destruct s as [|d s]; [done |].
    destruct (Ascii.eqb c d) eqn:E; [| done].
    apply Ascii.eqb_eq in E. subst d. intros Hs. by rewrite (IH _ Hs).
Qed.

Lemma take_app (p s : string) :
  take (String.length (p ++ s) - String.length s) (p ++ s) = p.
Proof.
  rewrite length_app.
  replace (String.length p + String.length s - String.length s)%nat
    with (String.length p) by lia.
  induction p as [|c p IH]; simpl.
  - by destruct s.
  - by rewrite IH.
Qed.

Lemma occurs_app (c : ascii) (a b : string) :
  occurs c (a ++ b) = occurs c a || occurs c b.
Proof.
  induction a as [|x a IH]; simpl; [done |].
  destruct (Ascii.eqb c x); [done | apply IH].
Qed.

Lemma drop_last_closes (body : string) : drop_last (body ++ "}") = body.
Proof.
  induction body as [|c body IH]; simpl; [done |].
  rewrite IH. by destruct body.
Qed.

(** ** The pattern scans *)

Lemma match_here_lit (l : string) (r : regex) (s : string) :
  match_here (Cat (Lit l) r) s =
  match strip_prefix l s with
  | Some s' => match_here r s'
  | None => None
  end.
Proof. unfold match_here. simpl. by destruct (strip_prefix l s). Qed.

(** A pattern that starts with a literal finds nothing in a text in which
    the literal does not occur. *)
Lemma find_absent (l : string) (r : regex) (s : string) :
  contains l s = false → FindAllStringSubmatch (Cat (Lit l) r) s = None.
Proof.
  induction s as [|c s IH]; intros Hc.
  - simpl in *. rewrite match_here_lit.
    by destruct (strip_prefix l "").
  - cbn [FindAllStringSubmatch]. rewrite match_here_lit.
    cbn [contains] in Hc.
    destruct (strip_prefix l (String c s)); [done |].
    by apply IH.
Qed.

(** A match of a pattern that starts with a literal sits on an
    occurrence of the literal: a split of the text at the end of it. *)
Lemma find_lit_split (l : string) (r : regex) (s c : string) :
  FindAllStringSubmatch (Cat (Lit l) r) s = Some c →
  ∃ pre rest, s = pre ++ l ++ rest ∧ match_here r rest = Some c.
Proof.
  induction s as [|x s IH]; cbn [FindAllStringSubmatch];
    rewrite match_here_lit.
  - destruct (strip_prefix l "") as [s'|] eqn:E; [| done].
    destruct (match_here r s') as [c'|] eqn:E'; [| done].
    intros Hc. injection Hc as ->. exists "", s'. split; [| done].
    simpl. by apply strip_prefix_Some.
  - destruct (strip_prefix l (String x s)) as [s'|] eqn:E.
    + destruct (match_here r s') as [c'|] eqn:E'.
      * intros Hc. injection Hc as ->. exists "", s'. split; [| done].
        simpl. by apply strip_prefix_Some.
      * intros Hf. destruct (IH Hf) as (pre & rest & -> & Hm).
        by exists (String x pre), rest.
    + intros Hf. destruct (IH Hf) as (pre & rest & -> & Hm).
      by exists (String x pre), rest.
Qed.

(** The greedy run of [quoted_tail] swallows whatever stands in front on
    the same line: a match found further right is found from here too. *)
Lemma quoted_tail_extend (pre rest c : string) :
  one_line pre →
  match_here quoted_tail rest = Some c →
  match_here quoted_tail (pre ++ rest) = Some c.
Proof.
  unfold one_line.
  induction pre as [|x pre IH]; cbn [occurs append]; [done |].
  destruct (Ascii.eqb newline x) eqn:Ex; [done |].
  intros Hnl Hm. specialize (IH Hnl Hm).
  unfold match_here, quoted_tail in *. cbn [rmatch] in *.
  cbn [any_star]. rewrite Ascii.eqb_sym, Ex. by rewrite IH.
Qed.

(** On a text of one line, the scan for a key captures what
    [quoted_tail] captures from the front of the text, wherever the key
    stands: the scans for two keys capture the same text. *)
Lemma find_one_line (l s c : string) :
  one_line s →
  FindAllStringSubmatch (Cat (Lit l) quoted_tail) s = Some c →
  match_here quoted_tail s = Some c.
Proof.
  intros Hs Hf. apply find_lit_split in Hf as (pre & rest & -> & Hm).
  rewrite <- app_assoc'. apply quoted_tail_extend; [| done].
  unfold one_line in *. rewrite <- app_assoc', occurs_app in Hs.
  by apply orb_false_elim in Hs as [? _].
Qed.

Lemma strip_prefix_cat (p q s : string) :
  strip_prefix (p ++ q) s =
  match strip_prefix p s with
  | Some s' => strip_prefix q s'
  | None => None
  end.
Proof.
  revert s. induction p as [|c p IH]; intros s; cbn [append strip_prefix].
  - done.
  - destruct s as [|d s]; [done |]. by destruct (Ascii.eqb c d).
Qed.

(** The scan for the metadata key, at the front of a text. *)
Lemma match_here_meta (s : string) :
  match_here txmMetaTypeRegex s =
  match strip_prefix (quoted "meta") s with
  | Some _ => Some "meta"
  | None => match strip_prefix (quoted "metaData") s with
            | Some _ => Some "metaData"
            | None => None
            end
  end.
Proof.
  unfold match_here, txmMetaTypeRegex, quoted. cbn [rmatch].
  rewrite !strip_prefix_cat.
  destruct (strip_prefix dq s) as [s0|]. 2:{ done. }
  change "metaData" with ("meta" ++ "Data"). rewrite !strip_prefix_cat.
  destruct (strip_prefix "meta" s0) as [s1|] eqn:E1; [| done].
  apply strip_prefix_Some in E1 as ->.
  rewrite (take_app "meta" s1).
  destruct (strip_prefix dq s1); [done |].
  destruct (strip_prefix "Data" s1) as [s2|] eqn:E2; [| done].
  apply strip_prefix_Some in E2 as ->.
  rewrite <- (app_assoc' "meta" "Data" s2), (take_app ("meta" ++ "Data") s2).
  by destruct (strip_prefix dq s2).
Qed.

Lemma find_meta_cases (s m : string) :
  FindAllStringSubmatch txmMetaTypeRegex s = Some m →
  (m = "meta" ∧ contains (quoted "meta") s = true) ∨
  (m = "metaData" ∧ contains (quoted "metaData") s = true).
Proof.
  induction s as [|x s IH]; cbn [FindAllStringSubmatch contains];
    rewrite match_here_meta.
  - done.
  - destruct (strip_prefix (quoted "meta") (String x s)).
    { intros [= <-]. by left. }
    destruct (strip_prefix (quoted "metaData") (String x s)).
    { intros [= <-]. by right. }
    exact IH.
Qed.

Lemma find_meta_some (s : string) :
  contains (quoted "meta") s || contains (quoted "metaData") s = true →
  is_Some (FindAllStringSubmatch txmMetaTypeRegex s).
Proof.
  induction s as [|x s IH]; cbn [FindAllStringSubmatch contains];
    rewrite match_here_meta.
  - done.
  - destruct (strip_prefix (quoted "meta") (String x s)); [by eexists |].
    destruct (strip_prefix (quoted "metaData") (String x s)); [by eexists |].
    exact IH.
Qed.

(** Neither key occurs: the scan finds nothing. *)
Lemma find_meta_none (s : string) :
  contains (quoted "meta") s = false →
  contains (quoted "metaData") s = false →
  FindAllStringSubmatch txmMetaTypeRegex s = None.
Proof.
  intros H1 H2.
  destruct (FindAllStringSubmatch txmMetaTypeRegex s) as [m|] eqn:E; [| done].
  apply find_meta_cases in E as [[_ ?]|[_ ?]]; congruence.
Qed.

(** Only the key metaData occurs: the scan finds it. *)
Lemma find_meta_metaData (s : string) :
  contains (quoted "metaData") s = true →
  contains (quoted "meta") s = false →
  FindAllStringSubmatch txmMetaTypeRegex s = Some "metaData".
Proof.
  intros H1 H2.
  destruct (find_meta_some s) as [m E]; [by rewrite H1, orb_true_r |].
  rewrite E. apply find_meta_cases in E as [[_ ?]|[-> _]]; congruence.
Qed.

(** Only the key meta occurs: the scan finds it. *)
Lemma find_meta_meta (s : string) :
  contains (quoted "meta") s = true →
  contains (quoted "metaData") s = false →
  FindAllStringSubmatch txmMetaTypeRegex s = Some "meta".
Proof.
  intros H1 H2.
  destruct (find_meta_some s) as [m E]; [by rewrite H1 |].
  rewrite E. apply find_meta_cases in E as [[-> _]|[_ ?]]; congruence.
Qed.

(** Unfold the operations of the method monad. *)
Ltac run :=
  unfold mbind, mret, M_bind, M_ret, outcome_bind, outcome_ret,
    bind, ret, throw, raise, lift, modify, put, get in *.

(** ** encoding/hex *)

(** Induction on a text, two characters at a time. *)
Lemma string_pairs_ind (P : string → Prop) :
  P "" →
  (∀ p, P (String p "")) →
  (∀ p q s, P s → P (String p (String q s))) →
  ∀ s, P s.
Proof.
  intros H0 H1 H2.
  assert (Hboth : ∀ s, P s ∧ ∀ c, P (String c s)).
  { induction s as [|c s [IHs IHc]]; split; auto. }
  intros s. apply Hboth.
Qed.

(** [hex.DecodeString] reports an error on the malformed texts and on
    no other. *)
Lemma hex_DecodeString_error (s : string) :
  malformed_hex s ↔ ∃ e, (hex_DecodeString s).2 = Some e.
Proof.
  unfold malformed_hex.
  induction s as [|p|p q s IH] using string_pairs_ind.
  - cbn. split; [intros [?|?]; done | intros [? ?]; done].
  - cbn. split; [| by left].
    intros _. unfold is_hex_digit. destruct (fromHexChar p); by eexists.
  - cbn [hex_DecodeString String.length all_hex Nat.odd].
    unfold is_hex_digit.
    destruct (fromHexChar p) as [a|].
    2:{ split; [by eexists | by right]. }
    destruct (fromHexChar q) as [b|].
    2:{ split; [by eexists | by right]. }
    destruct (hex_DecodeString s) as [bs e]. cbn in *.
    change (Nat.odd (S (S (String.length s)))) with (Nat.odd (String.length s)).
    exact IH.
Qed.

Lemma hex_DecodeString_length (s : string) :
  (2 * length (hex_DecodeString s).1 ≤ String.length s)%nat.
Proof.
  induction s as [|p|p q s IH] using string_pairs_ind.
  - cbn. lia.
  - cbn. destruct (fromHexChar p); cbn; lia.
  - cbn [hex_DecodeString String.length].
    destruct (fromHexChar p) as [a|]; [| cbn; lia].
    destruct (fromHexChar q) as [b|]; [| cbn; lia].
    destruct (hex_DecodeString s) as [bs e]. cbn in *. lia.
Qed.

(** [hex.Decode] into an array with room for the bytes: it writes what
    [hex.DecodeString] decodes, from index [i] on, and reports the same
    error. *)
Lemma hex_Decode_fits (l : positive) (src : string) :
  ∀ (i : nat) (a : list Z) (σ : heap),
  σ !! l = Some a →
  (i + length (hex_DecodeString src).1 ≤ length a)%nat →
  hex_Decode l i src σ =
    (<[l := list_inserts i (hex_DecodeString src).1 a]> σ,
     match (hex_DecodeString src).2 with
     | None => Ok (i + length (hex_DecodeString src).1)%nat
     | Some e => Err (HexError e)
     end).
Proof.
  induction src as [|p|p q s IH] using string_pairs_ind; intros i a σ Hl Hfit.
  - cbn. rewrite insert_id by done. run. by rewrite Nat.add_0_r.
  - cbn. run. destruct (fromHexChar p); cbn; by rewrite insert_id.
  - cbn [hex_Decode hex_DecodeString] in *.
    destruct (fromHexChar p) as [x|]; [| run; cbn; by rewrite insert_id].
    destruct (fromHexChar q) as [y|]; [| run; cbn; by rewrite insert_id].
    destruct (hex_DecodeString s) as [bs e] eqn:Es. cbn [fst snd length] in *.
    run. unfold store_index. rewrite Hl.
    destruct (decide (i < length a)%nat) as [_|]; [| lia].
    erewrite IH; [| apply lookup_insert_eq | rewrite length_insert; lia].
    rewrite insert_insert_eq. cbn [list_inserts].
    rewrite list_insert_inserts_lt by lia.
    by replace (S i + length bs)%nat with (i + S (length bs))%nat by lia.
Qed.

(** [hex.Decode] writes to the array it is given and to no other. *)
Lemma hex_Decode_frame (l : positive) (src : string) :
  ∀ (i : nat) (σ : heap) (l0 : positive),
  l0 ≠ l → (hex_Decode l i src σ).1 !! l0 = σ !! l0.
Proof.
  induction src as [|p|p q s IH] using string_pairs_ind; intros i σ l0 Hne.
  - done.
  - cbn. by destruct (fromHexChar p).
  - cbn [hex_Decode].
    destruct (fromHexChar p) as [x|]; [| done].
    destruct (fromHexChar q) as [y|]; [| done].
    run. unfold store_index.
    destruct (σ !! l) as [a|] eqn:Hl; [| done].
    destruct (decide (i < length a)%nat); [| done].
    rewrite IH by done. by rewrite lookup_insert_ne.
Qed.

(** A value receiver: the caller's array is what it was. *)
Lemma value_receiver_frame (h : positive) (b : string) (σ : heap) :
  (Hash128_UnmarshalText h b σ).1 !! h = σ !! h.
Proof.
  unfold Hash128_UnmarshalText, load, alloc. run.
  destruct (σ !! h) as [a|] eqn:Hh; [| done].
  assert (Hne : h ≠ fresh (dom σ)).
  { intros Heq. apply (is_fresh (dom σ)). rewrite <- Heq.
    apply elem_of_dom. by eexists. }
  pose proof (hex_Decode_frame (fresh (dom σ)) b 0
                (<[fresh (dom σ) := a]> σ) h Hne) as Hf.
  destruct (hex_Decode (fresh (dom σ)) 0 b (<[fresh (dom σ) := a]> σ))
    as [σ' [n|e|p]]; cbn in *; rewrite Hf, lookup_insert_ne; done.
Qed.

(** ** strconv *)

Lemma to_uint_nonnil (n : N) : N.to_uint n ≠ Decimal.Nil.
Proof.
  destruct n as [|p]; [done |]. apply DecimalPos.Unsigned.to_uint_nonnil.
Qed.

Lemma string_of_uint_nonempty (d : Decimal.uint) :
  d ≠ Decimal.Nil → NilEmpty.string_of_uint d ≠ "".
Proof. by destruct d. Qed.

(** The digits of a printed number read back as the number. *)
Lemma parse_digits_FormatUint (m : Z) :
  0 <= m → parse_digits (FormatUint m) = Some m.
Proof.
  intros Hm. unfold parse_digits, FormatUint.
  pose proof (string_of_uint_nonempty _ (to_uint_nonnil (Z.to_N m))) as Hne.
  destruct (NilEmpty.string_of_uint (N.to_uint (Z.to_N m))) eqn:E; [done |].
  rewrite <- E, NilEmpty.usu, DecimalN.Unsigned.of_to.
  f_equal. lia.
Qed.

Lemma ParseUint_FormatUint (m : Z) :
  0 <= m <= maxUint64 → ParseUint (FormatUint m) = inr m.
Proof.
  intros [H0 H1]. unfold ParseUint. rewrite parse_digits_FormatUint by done.
  destruct (m <=? maxUint64) eqn:E; [done | lia].
Qed.

(** A printed number is a run of decimal digits: it holds no character
    outside of them, so neither a quote nor a newline. *)
Lemma occurs_string_of_uint (c : ascii) (d : Decimal.uint) :
  (byte_of c <? 48) || (57 <? byte_of c) = true →
  occurs c (NilEmpty.string_of_uint d) = false.
Proof.
  intros Hc.
  induction d; cbn [NilEmpty.string_of_uint occurs]; [done | ..];
    rewrite IHd;
    (destruct (Ascii.eqb c _) eqn:E; [| done]);
    apply Ascii.eqb_eq in E; subst c; done.
Qed.

Lemma one_line_FormatUint (n : Z) : one_line (FormatUint n).
Proof. by apply occurs_string_of_uint. Qed.

(** ** Hex rendering *)

Lemma byte_of_char_of (n : Z) : 0 <= n < 256 → byte_of (char_of n) = n.
Proof.
  intros Hn. unfold byte_of, char_of.
  rewrite N_ascii_embedding by lia. lia.
Qed.

Lemma hexdigit_lower (n : Z) :
  0 <= n < 16 → is_lower_hex_digit (hexdigit n) = true.
Proof.
  intros Hn. unfold is_lower_hex_digit, hexdigit.
  destruct (n <? 10) eqn:E; rewrite byte_of_char_of by lia.
  - apply orb_true_iff. left. apply andb_true_iff. lia.
  - apply orb_true_iff. right. apply andb_true_iff. lia.
Qed.

Lemma hex_EncodeToString_length (h : list Z) :
  String.length (hex_EncodeToString h) = (2 * length h)%nat.
Proof. induction h as [|b h IH]; cbn; [done | rewrite IH; lia]. Qed.

Lemma hex_EncodeToString_lower (h : list Z) :
  is_bytes h → all_lower_hex (hex_EncodeToString h) = true.
Proof.
  induction 1 as [|b h Hb _ IH]; [done |].
  cbn [hex_EncodeToString all_lower_hex]. rewrite IH.
  rewrite !hexdigit_lower; [done | |].
  - change 15 with (Z.ones 4). rewrite Z.land_ones by lia.
    apply Z.mod_pos_bound. lia.
  - rewrite Z.shiftr_div_pow2 by lia. change (2 ^ 4) with 16.
    split; [apply Z.div_pos; lia | apply Z.div_lt_upper_bound; lia].
Qed.

(** A text of lowercase hex digits holds no other character. *)
Lemma occurs_lower_hex (c : ascii) (s : string) :
  is_lower_hex_digit c = false → all_lower_hex s = true →
  occurs c s = false.
Proof.
  intros Hc. induction s as [|d s IH]; cbn [all_lower_hex occurs]; [done |].
  intros [Hd Hs]%andb_true_iff.
  destruct (Ascii.eqb c d) eqn:E; [| by apply IH].
  apply Ascii.eqb_eq in E. congruence.
Qed.

Lemma one_line_hex (h : list Z) :
  is_bytes h → one_line (hex_EncodeToString h).
Proof.
  intros Hh. apply occurs_lower_hex; [done |].
  by apply hex_EncodeToString_lower.
Qed.

(** ** The envelope codec *)

Section envelope_properties.
Context `{TransactionPackage}.

(** Decoding, up to the point where the type and the hash have been
    found: the factory is called with the type found. *)
Lemma decode_found (b txType hash : string) (t : txm_t) :
  FindAllStringSubmatch txmTransactionTypeRegex b = Some txType →
  FindAllStringSubmatch txmHashRegex b = Some hash →
  decode b t =
  match GetTxFactoryByType txType with
  | Returns tx =>
      match hex_DecodeString hash with
      | (_, Some _) =>
          (mkDecoding (mkTxm (Some tx) (MetaData_of t) (LedgerSequence t))
             [txType], Err (BadHash hash))
      | (h, None) =>
          match json_Unmarshal_Transaction b (SetHash h tx) with
          | (tx', Ok _) =>
              let t' := mkTxm (Some tx') (MetaData_of t) (LedgerSequence t) in
              let metaType :=
                default "" (FindAllStringSubmatch txmMetaTypeRegex b) in
              if String.eqb metaType "meta" then
                let '(t'', o) := json_Unmarshal_txmNormal b t' in
                (mkDecoding t'' [txType], o)
              else if String.eqb metaType "metaData" then
                match json_Unmarshal_txmLedger b with
                | Ok meta =>
                    (mkDecoding (mkTxm (Some tx') meta (LedgerSequence t))
                       [txType], Ok tt)
                | Err e => (mkDecoding t' [txType], Err e)
                | Panic p => (mkDecoding t' [txType], Panic p)
                end
              else (mkDecoding t' [txType], Ok tt)
          | (tx', Err e) =>
              (mkDecoding (mkTxm (Some tx') (MetaData_of t) (LedgerSequence t))
                 [txType], Err e)
          | (tx', Panic p) =>
              (mkDecoding (mkTxm (Some tx') (MetaData_of t) (LedgerSequence t))
                 [txType], Panic p)
          end
      end
  | Panics p => (mkDecoding t [txType], Panic p)
  end.
Proof.
  intros Hty Hh. unfold decode, TransactionWithMetaData_UnmarshalJSON.
  rewrite Hty, Hh. unfold call_factory, on_txm, zoom. run. cbn.
  destruct (GetTxFactoryByType txType) as [tx|p]; [| done].
  destruct (hex_DecodeString hash) as [h [e|]]; [done |].
  unfold txm_SetHash, unmarshal_Transaction. cbn.
  destruct (json_Unmarshal_Transaction b (SetHash h tx)) as [tx' [[]|e|p]];
    [| done | done].
  destruct (String.eqb _ "meta"); [by destruct (json_Unmarshal_txmNormal b _) |].
  destruct (String.eqb _ "metaData"); [| done].
  by destruct (json_Unmarshal_txmLedger b).
Qed.

(** C4. For every input text in which the scan finds no TransactionType
    value, decoding returns the error of a missing TransactionType, a
    missing-field error; the receiver is what it was and the transaction
    factory has not been called. *)
Theorem decode_missing_TransactionType (b : string) (t : txm_t) :
  FindAllStringSubmatch txmTransactionTypeRegex b = None →
  decode b t = (mkDecoding t [], Err MissingTransactionType) ∧
  class_of MissingTransactionType = MissingFieldError ∧
  factory_calls (decode b t).1 = [].
Proof.
  intros Hty. unfold decode, TransactionWithMetaData_UnmarshalJSON.
  by rewrite Hty.
Qed.

(** A text without the quoted key TransactionType and its colon is one in
    which the scan finds no TransactionType value. *)
Lemma no_key_no_TransactionType (b : string) :
  contains (quoted "TransactionType" ++ ":") b = false →
  FindAllStringSubmatch txmTransactionTypeRegex b = None.
Proof. apply find_absent. Qed.

(** The guard of the hash stands before the call of the factory. *)
Lemma decode_missing_hash (b txType : string) (t : txm_t) :
  FindAllStringSubmatch txmTransactionTypeRegex b = Some txType →
  FindAllStringSubmatch txmHashRegex b = None →
  decode b t = (mkDecoding t [], Err MissingHash).
Proof.
  intros Hty Hh. unfold decode, TransactionWithMetaData_UnmarshalJSON.
  by rewrite Hty, Hh.
Qed.

(** X15.  The three ways of the metadata.  Take a payload in which the
    scans find a registered type name and a hash of well-formed hex, and
    whose structural decoding into the transaction made by the factory
    succeeds with [tx].  If the payload
    has the quoted key metaData and not the quoted key meta, the metadata
    of the result is the one decoded from the nested metaData object.  If
    it has the quoted key meta and not metaData, the result is the one of
    decoding the whole input against the merged shape, which sets the
    metadata and the ledger sequence.  If it has neither key, decoding
    succeeds and metadata and ledger sequence are those of the receiver,
    the zero values for a new receiver. *)
Theorem decode_metadata (b txType hash : string) (code : Z) (h : list Z)
    (tx : Tx) (t : txm_t) :
  FindAllStringSubmatch txmTransactionTypeRegex b = Some txType →
  txTypes !! txType = Some code →
  FindAllStringSubmatch txmHashRegex b = Some hash →
  hex_DecodeString hash = (h, None) →
  json_Unmarshal_Transaction b (SetHash h (TxFactory code)) = (tx, Ok tt) →
  let t' := mkTxm (Some tx) (MetaData_of t) (LedgerSequence t) in
  (contains (quoted "metaData") b = true →
   contains (quoted "meta") b = false →
   ∀ meta, json_Unmarshal_txmLedger b = Ok meta →
   decode b t =
     (mkDecoding (mkTxm (Some tx) meta (LedgerSequence t)) [txType], Ok tt))
  ∧
  (contains (quoted "meta") b = true →
   contains (quoted "metaData") b = false →
   decode b t =
     (mkDecoding (json_Unmarshal_txmNormal b t').1 [txType],
      (json_Unmarshal_txmNormal b t').2))
  ∧
  (contains (quoted "meta") b = false →
   contains (quoted "metaData") b = false →
   decode b t = (mkDecoding t' [txType], Ok tt) ∧
   decode b txm_zero =
     (mkDecoding (mkTxm (Some tx) MetaData_zero 0) [txType], Ok tt)).
Proof.
  intros Hty Hreg Hh Hhex Htx t'.
  assert (Hd : ∀ t0, decode b t0 =
    let t1 := mkTxm (Some tx) (MetaData_of t0) (LedgerSequence t0) in
    let metaType := default "" (FindAllStringSubmatch txmMetaTypeRegex b) in
    if String.eqb metaType "meta" then
      let '(t'', o) := json_Unmarshal_txmNormal b t1 in
      (mkDecoding t'' [txType], o)
    else if String.eqb metaType "metaData" then
      match json_Unmarshal_txmLedger b with
      | Ok meta =>
          (mkDecoding (mkTxm (Some tx) meta (LedgerSequence t0)) [txType],
           Ok tt)
      | Err e => (mkDecoding t1 [txType], Err e)
      | Panic p => (mkDecoding t1 [txType], Panic p)
      end
    else (mkDecoding t1 [txType], Ok tt)).
  { intros t0. rewrite (decode_found b txType hash t0 Hty Hh).
    unfold GetTxFactoryByType. by rewrite Hreg, Hhex, Htx. }
  split; [| split].
  - intros H1 H2 meta Hmeta. rewrite Hd, (find_meta_metaData b H1 H2).
    cbn. by rewrite Hmeta.
  - intros H1 H2. rewrite Hd, (find_meta_meta b H1 H2). cbn.
    by destruct (json_Unmarshal_txmNormal b _).
  - intros H1 H2. rewrite !Hd, (find_meta_none b H1 H2). done.
Qed.


(** C6, as amended.  A text of odd length or with a character that is no
    hex digit is refused with a format error: by [Hash256.UnmarshalText]
    when the text has at most 64 characters, and by the decoding of an
    envelope, as a bad hash, whenever the scans find a registered type and
    such a hash.  The length is not checked: a well-formed text of fewer
    than 64 characters is accepted, and its bytes overwrite the front of
    the hash. *)
Theorem hash_decode_malformed :
  (∀ (σ : heap) (l : positive) (a : list Z) (b : string),
     σ !! l = Some a → length a = Hash256_size →
     (String.length b ≤ 64)%nat →
     (malformed_hex b →
      ∃ e, (Hash256_UnmarshalText l b σ).2 = Err (HexError e) ∧
           class_of (HexError e) = FormatError) ∧
     (¬ malformed_hex b →
      Hash256_UnmarshalText l b σ =
        (<[l := list_inserts 0 (hex_DecodeString b).1 a]> σ, Ok tt)))
  ∧
  (∀ (b txType hash : string) (code : Z) (t : txm_t),
     FindAllStringSubmatch txmTransactionTypeRegex b = Some txType →
     txTypes !! txType = Some code →
     FindAllStringSubmatch txmHashRegex b = Some hash →
     malformed_hex hash →
     (decode b t).2 = Err (BadHash hash) ∧
     class_of (BadHash hash) = FormatError).
Proof.
  split.
  - intros σ l a b Hl Ha Hb.
    pose proof (hex_DecodeString_length b) as Hlen.
    pose proof (hex_DecodeString_error b) as Herr.
    assert (Hfit : (0 + length (hex_DecodeString b).1 ≤ length a)%nat).
    { rewrite Ha. unfold Hash256_size. lia. }
    pose proof (hex_Decode_fits l b 0 a σ Hl Hfit) as Hd.
    unfold Hash256_UnmarshalText. run. rewrite Hd.
    split.
    + intros [e He]%Herr. rewrite He. by exists e.
    + intros Hwf. destruct (hex_DecodeString b).2 as [e|] eqn:He; [| done].
      destruct Hwf. apply Herr. by exists e.
  - intros b txType hash code t Hty Hreg Hh [e He]%hex_DecodeString_error.
    rewrite (decode_found b txType hash t Hty Hh).
    unfold GetTxFactoryByType. rewrite Hreg.
    destruct (hex_DecodeString hash) as [h e']. cbn in He. by subst e'.
Qed.

(** C3.  For an envelope whose transaction marshals to a text that ends
    with a closing brace and whose metadata marshals, the encoded text is
    the text of the transaction without that brace, then the keys hash,
    inLedger, ledger_index and meta with their values and a closing
    brace; both numbers are the ledger sequence, and the hash is printed
    as 64 digits of lowercase hex. *)
Theorem MarshalJSON_splice (t : txm_t) (x : Tx) (tx body meta : string) :
  Transaction t = Some x →
  json_Marshal_Transaction (Some x) = Ok tx →
  closes tx body →
  json_Marshal_MetaData (MetaData_of t) = Ok meta →
  length (Hash x) = Hash256_size → is_bytes (Hash x) →
  let hex := Hash256_String (Hash x) in
  let n := FormatUint (LedgerSequence t) in
  TransactionWithMetaData_MarshalJSON t =
    Ok (body ++ js ",'hash':'" ++ hex ++ js "','inLedger':" ++ n
             ++ js ",'ledger_index':" ++ n ++ js ",'meta':" ++ meta ++ "}")
  ∧ String.length hex = 64%nat
  ∧ all_lower_hex hex = true.
Proof.
  intros Hx Htx -> Hmeta Hlen Hbytes hex n.
  split; [| split].
  - unfold TransactionWithMetaData_MarshalJSON, txm_Hash, but_last. run.
    rewrite Hx, Htx, Hmeta, drop_last_closes.
    destruct (body ++ "}") eqn:E; [by destruct body |].
    f_equal. unfold Sprintf_txmFormat, quoted. fold hex. fold n.
    rewrite !app_assoc'. reflexivity.
  - unfold hex, Hash256_String. rewrite hex_EncodeToString_length, Hlen. done.
  - by apply hex_EncodeToString_lower.
Qed.


(** *** Decoding what the encoder wrote *)

Lemma occurs_drop_last (c : ascii) (s : string) :
  occurs c s = false → occurs c (drop_last s) = false.
Proof.
  induction s as [|d s IH]; [done |].
  cbn [occurs drop_last]. destruct (Ascii.eqb c d) eqn:E; [done |].
  intros Hs. destruct s; [done |]. cbn [occurs]. rewrite E. by apply IH.
Qed.

Lemma one_line_app (a b : string) :
  one_line a → one_line b → one_line (a ++ b).
Proof. unfold one_line. intros Ha Hb. by rewrite occurs_app, Ha, Hb. Qed.

(** The encoder writes one line when the marshalled parts are one line
    each, as the compact texts of encoding/json are. *)
Lemma MarshalJSON_one_line (t : txm_t) (out : string) :
  (∀ x s, json_Marshal_Transaction x = Ok s → one_line s) →
  (∀ m s, json_Marshal_MetaData m = Ok s → one_line s) →
  (∀ x, is_bytes (Hash x)) →
  TransactionWithMetaData_MarshalJSON t = Ok out →
  one_line out.
Proof.
  intros Htx Hmeta Hbytes.
  unfold TransactionWithMetaData_MarshalJSON, txm_Hash, but_last. run.
  destruct (json_Marshal_Transaction (Transaction t)) as [tx| |] eqn:E1;
    [| done | done].
  destruct (json_Marshal_MetaData (MetaData_of t)) as [meta| |] eqn:E2;
    [| done | done].
  destruct tx as [|c tx]; [done |].
  destruct (Transaction t) as [x|]; [| done].
  intros [= <-]. unfold Sprintf_txmFormat, quoted.
  repeat apply one_line_app;
    try (apply one_line_FormatUint);
    try (apply one_line_hex, Hbytes);
    try (by eapply Hmeta);
    try done.
  apply (occurs_drop_last newline (String c tx)). by eapply Htx.
Qed.

(** A decode that succeeds has found a type and a hash, has got a
    transaction from the factory for the type found, and has read the
    hash found as hex. *)
Lemma decode_Ok_found (b : string) (t : txm_t) :
  (decode b t).2 = Ok tt →
  ∃ txType hash tx h,
    FindAllStringSubmatch txmTransactionTypeRegex b = Some txType ∧
    FindAllStringSubmatch txmHashRegex b = Some hash ∧
    GetTxFactoryByType txType = Returns tx ∧
    hex_DecodeString hash = (h, None).
Proof.
  destruct (FindAllStringSubmatch txmTransactionTypeRegex b) as [ty|] eqn:Hty.
  2:{ unfold decode, TransactionWithMetaData_UnmarshalJSON.
      by rewrite Hty. }
  destruct (FindAllStringSubmatch txmHashRegex b) as [hx|] eqn:Hh.
  2:{ by rewrite (decode_missing_hash b ty t Hty Hh). }
  rewrite (decode_found b ty hx t Hty Hh).
  destruct (GetTxFactoryByType ty) as [tx|p] eqn:Hf; [| done].
  destruct (hex_DecodeString hx) as [h [e|]] eqn:Hhex; [done |].
  intros _. by exists ty, hx, tx, h.
Qed.

(** With a type found and a malformed hash found, a decode ends with the
    error of a bad hash, unless the factory has panicked before. *)
Lemma decode_malformed_hash (b txType hash : string) (t : txm_t) :
  FindAllStringSubmatch txmTransactionTypeRegex b = Some txType →
  FindAllStringSubmatch txmHashRegex b = Some hash →
  malformed_hex hash →
  (decode b t).2 = Err (BadHash hash) ∨ ∃ p, (decode b t).2 = Panic p.
Proof.
  intros Hty Hh [e He]%hex_DecodeString_error.
  rewrite (decode_found b txType hash t Hty Hh).
  destruct (GetTxFactoryByType txType) as [tx|p]; [| right; by exists p].
  destruct (hex_DecodeString hash) as [h e']. cbn in He. subst e'. by left.
Qed.

End envelope_properties.

(** ** Value and Amount *)

Section amount_properties.
Context `{AmountPackage}.

(** C8, as amended.  A native value with the sign clear and the exponent
    zero is encoded as the decimal text of its magnitude, a run of digits
    that reads back as the magnitude and holds no brace of an object;
    decoding that text, into whatever value, gives the original again.
    The encoder prints the magnitude of every native value so, whatever
    its sign. *)
Theorem native_Value_roundtrip (v : Value) :
  Native v = true → Negative v = false → Offset v = 0 →
  0 <= Num v <= maxUint64 →
  Value_MarshalText v = Ok (FormatUint (Num v)) ∧
  parse_digits (FormatUint (Num v)) = Some (Num v) ∧
  occurs "{" (FormatUint (Num v)) = false ∧
  (∀ v0, Value_UnmarshalText (FormatUint (Num v)) v0 = (v, Ok tt)) ∧
  (∀ w, Native w = true → Value_MarshalText w = Ok (FormatUint (Num w))).
Proof.
  destruct v as [native negative m offset]. cbn.
  intros -> -> -> Hm.
  split; [done |]. split; [apply parse_digits_FormatUint; lia |].
  split; [by apply occurs_string_of_uint |]. split.
  - intros v0. unfold Value_UnmarshalText, Value_Parse. run. cbn.
    by rewrite ParseUint_FormatUint.
  - intros w Hw. unfold Value_MarshalText. by rewrite Hw.
Qed.

(** The fallback of [Amount.UnmarshalJSON] slices [b[1:len(b)-1]] without
    a look at the length: when the text is no JSON object and has fewer
    than two bytes, the slice expression panics. *)
Lemma Amount_UnmarshalJSON_short (b : string) (a : Amount) (e : error) :
  json_Unmarshal_map b = Err e →
  (String.length b ≤ 1)%nat →
  (Amount_UnmarshalJSON b a).2 =
    Panic (SliceBoundsOutOfRange 1 (Z.of_nat (String.length b) - 1)).
Proof.
  intros He Hb. unfold Amount_UnmarshalJSON, on_Value, zoom, slice. run.
  cbn. rewrite He.
  destruct (1 <=? Z.of_nat (String.length b) - 1) eqn:E; [lia |].
  done.
Qed.

End amount_properties.

(** ** Network time *)

Lemma parse_digits_nonneg (s : string) (n : Z) :
  parse_digits s = Some n → 0 <= n.
Proof.
  unfold parse_digits. destruct s; [done |].
  destruct (NilEmpty.uint_of_string _); [| done]. intros [= <-]. lia.
Qed.

(** [strconv.ParseInt] returns a signed 64-bit integer. *)
Lemma ParseInt_range (s : string) (t : Z) :
  ParseInt s = inr t → minInt64 <= t <= maxInt64.
Proof.
  unfold ParseInt, minInt64, maxInt64.
  destruct (match s with
            | String "+" s' => (false, s')
            | String "-" s' => (true, s')
            | _ => (false, s)
            end) as [neg digits].
  destruct (parse_digits digits) as [n|] eqn:E; [| done].
  apply parse_digits_nonneg in E.
  destruct neg.
  - destruct (n <=? 2 ^ 63) eqn:E'; [| done]. intros [= <-]. lia.
  - destruct (n <=? 2 ^ 63 - 1) eqn:E'; [| done]. intros [= <-]. lia.
Qed.

Lemma wrap64_id (z : Z) : minInt64 <= z <= maxInt64 → wrap64 z = z.
Proof.
  unfold wrap64, minInt64, maxInt64. intros Hz.
  rewrite Z.mod_small by lia. lia.
Qed.

(** C9, as amended.  An input that parses as a signed 64-bit integer [t]
    decodes to the time [t + 946684800] in Unix seconds whenever that sum
    is itself a signed 64-bit integer, and to the sum wrapped around in
    every case; the text 0 decodes to 2000-01-01T00:00:00Z and the text
    86400 to 2000-01-02T00:00:00Z; an input that is no integer literal
    of 64 bits gives an error and leaves the receiver as it was. *)
Theorem RippleTime_decode (b : string) (t0 : RippleTime) :
  (∀ t, ParseInt b = inr t →
     RippleTime_UnmarshalJSON b t0 =
       (time_Unix (wrap64 (t + 946684800)), Ok tt) ∧
     (t + 946684800 <= maxInt64 → wrap64 (t + 946684800) = t + 946684800))
  ∧
  (∀ e, ParseInt b = inl e →
     RippleTime_UnmarshalJSON b t0 = (t0, Err (BadRippleTime b)))
  ∧ UTC_of (RippleTime_UnmarshalJSON "0" t0).1 = UTC 2000 1 1 0 0 0
  ∧ UTC_of (RippleTime_UnmarshalJSON "86400" t0).1 = UTC 2000 1 2 0 0 0.
Proof.
  split; [| split; [| split]]; [| | done | done].
  - intros t Ht. unfold RippleTime_UnmarshalJSON. rewrite Ht.
    split; [done |]. intros Hsum. apply wrap64_id.
    apply ParseInt_range in Ht. unfold minInt64, maxInt64 in *. lia.
  - intros e He. unfold RippleTime_UnmarshalJSON. by rewrite He.
Qed.

(** ** Fixed-size hashes *)

(** C10.  [Hash128.UnmarshalText] and [Hash160.UnmarshalText] leave the
    caller's hash as it was, for every text and every hash: they decode
    into the copy that the value receiver is.  [Hash256.UnmarshalText]
    has a pointer receiver and writes the bytes of a well-formed text
    into its target. *)
Theorem value_receivers_leave_hash (σ : heap) (h : positive) (b : string) :
  (Hash128_UnmarshalText h b σ).1 !! h = σ !! h ∧
  (Hash160_UnmarshalText h b σ).1 !! h = σ !! h ∧
  (∀ a, σ !! h = Some a →
        (String.length b ≤ 2 * length a)%nat →
        ¬ malformed_hex b →
        (Hash256_UnmarshalText h b σ).1 !! h =
          Some (list_inserts 0 (hex_DecodeString b).1 a)).
Proof.
  split; [apply value_receiver_frame |].
  split; [apply value_receiver_frame |].
  intros a Ha Hlen _.
  pose proof (hex_DecodeString_length b) as Hb.
  unfold Hash256_UnmarshalText. run.
  rewrite (hex_Decode_fits h b 0 a σ Ha) by (cbn; lia).
  destruct (hex_DecodeString b).2; cbn; apply lookup_insert_eq.
Qed.

(** ** The codec on the instance *)

(** Close a conjunction of facts that hold by evaluation. *)
Ltac evaluate :=
  repeat match goal with
         | |- _ ∧ _ => split
         | |- _ = _ => reflexivity
         | |- _ ≠ _ => discriminate
         end.

Section examples.
Import Demo.

(** [decode_metadata] at the three payloads of the instance: metadata
    under metaData, under meta, and none. *)
Lemma decode_metadata_witness :
  decode payload_metaData txm_zero =
    (mkDecoding (mkTxm (Some alice) (mkMeta "tecPATH_DRY") 0) ["Payment"],
     Ok tt) ∧
  decode payload_meta txm_zero =
    (mkDecoding alice_envelope ["Payment"], Ok tt) ∧
  decode payload_plain txm_zero =
    (mkDecoding (mkTxm (Some alice) meta_zero 0) ["Payment"], Ok tt).
Proof.
  split; [| split].
  - apply (proj1 (decode_metadata (H := package)
                    payload_metaData "Payment" h64 0 h32 alice txm_zero
                    eq_refl eq_refl eq_refl eq_refl eq_refl));
      reflexivity.
  - rewrite (proj1 (proj2 (decode_metadata (H := package)
                             payload_meta "Payment" h64 0 h32 alice txm_zero
                             eq_refl eq_refl eq_refl eq_refl eq_refl))
               eq_refl eq_refl).
    reflexivity.
  - apply (proj2 (proj2 (decode_metadata (H := package)
                           payload_plain "Payment" h64 0 h32 alice txm_zero
                           eq_refl eq_refl eq_refl eq_refl eq_refl)));
      reflexivity.
Defined.

(** C1.  The payload with the registered type Payment, a valid hash and
    the metadata under the key metaData, written on one line.  Both scans
    capture the last quoted text of the line, the name of the transaction
    result; the decode calls the factory with that text and takes it for
    the hash, and it returns the error of a bad hash: no metadata is
    populated.  Whatever the collaborators and the receiver, the decode
    of this payload ends with that error or with a panic of the factory.
    The same fields with one on a line are decoded with the metadata of
    the nested object. *)
Theorem decode_metaData_on_one_line :
  types !! "Payment" = Some 0 ∧
  contains (quoted "metaData") payload_metaData_line = true ∧
  FindAllStringSubmatch txmTransactionTypeRegex payload_metaData_line
    = Some "tecPATH_DRY" ∧
  FindAllStringSubmatch txmHashRegex payload_metaData_line
    = Some "tecPATH_DRY" ∧
  decode payload_metaData_line txm_zero =
    (mkDecoding (mkTxm (Some (factory 0)) meta_zero 0) ["tecPATH_DRY"],
     Err (BadHash "tecPATH_DRY")) ∧
  (∀ (P : TransactionPackage) (t : TransactionWithMetaData Tx MetaData),
     (decode (H := P) payload_metaData_line t).2
       = Err (BadHash "tecPATH_DRY") ∨
     ∃ p, (decode (H := P) payload_metaData_line t).2 = Panic p) ∧
  decode payload_metaData txm_zero =
    (mkDecoding (mkTxm (Some alice) (mkMeta "tecPATH_DRY") 0) ["Payment"],
     Ok tt).
Proof.
  split; [reflexivity |]. split; [reflexivity |].
  split; [reflexivity |]. split; [reflexivity |].
  split; [reflexivity |]. split; [| reflexivity].
  intros P t.
  apply (decode_malformed_hash (H := P) payload_metaData_line
           "tecPATH_DRY" "tecPATH_DRY" t eq_refl eq_refl).
  by left.
Qed.

(** [decode_missing_TransactionType] at a payload with a hash only. *)
Lemma decode_missing_TransactionType_witness :
  decode payload_no_type txm_zero =
    (mkDecoding txm_zero [], Err MissingTransactionType).
Proof.
  apply (decode_missing_TransactionType (H := package)
           payload_no_type txm_zero).
  reflexivity.
Defined.



(** C6, the counterexample: the text 00 decodes to one byte, not to 32,
    and is accepted, by [Hash256.UnmarshalText] and as the hash of an
    envelope. *)
Lemma short_hash_accepted :
  length (hex_DecodeString "00").1 = 1%nat ∧
  (Hash256_UnmarshalText 3 "00" hashes).2 = Ok tt ∧
  FindAllStringSubmatch txmHashRegex payload_short_hash = Some "00" ∧
  (decode payload_short_hash txm_zero).2 = Ok tt.
Proof. evaluate. Qed.

(** [hash_decode_malformed] at a text with the character g, at a text of
    three digits, and at a payload with the hash 0g. *)
Lemma hash_decode_malformed_witness :
  (Hash256_UnmarshalText 3 "0g" hashes).2
    = Err (HexError (InvalidByteError "g")) ∧
  (Hash256_UnmarshalText 3 "000" hashes).2 = Err (HexError ErrLength) ∧
  (decode payload_bad_hash txm_zero).2 = Err (BadHash "0g").
Proof.
  pose proof (hash_decode_malformed (H := package)) as [Hh He].
  split; [| split].
  - destruct (proj1 (Hh hashes 3%positive (repeat 0 Hash256_size) "0g"
                       eq_refl eq_refl ltac:(cbn; lia))
                (or_intror eq_refl)) as (e & He' & _).
    rewrite He'. vm_compute in He'. congruence.
  - destruct (proj1 (Hh hashes 3%positive (repeat 0 Hash256_size) "000"
                       eq_refl eq_refl ltac:(cbn; lia))
                (or_introl eq_refl)) as (e & He' & _).
    rewrite He'. vm_compute in He'. congruence.
  - apply (He payload_bad_hash "Payment" "0g" 0 txm_zero
             eq_refl eq_refl eq_refl (or_intror eq_refl)).
Defined.

(** [MarshalJSON_splice] at the envelope of the instance. *)
Lemma MarshalJSON_splice_witness :
  TransactionWithMetaData_MarshalJSON alice_envelope = Ok alice_encoded.
Proof.
  pose proof (MarshalJSON_splice (H := package) alice_envelope alice
    (js "{'Account':'rAlice','TransactionType':'Payment'}")
    (js "{'Account':'rAlice','TransactionType':'Payment'")
    (js "{'TransactionResult':'tecPATH_DRY'}")
    eq_refl eq_refl eq_refl eq_refl eq_refl) as Hs.
  destruct Hs as [Hs _].
  { unfold is_bytes. cbn. repeat constructor; lia. }
  rewrite Hs. reflexivity.
Defined.

(** C2.  The envelope that [payload_meta] decodes to is encoded on one
    line; in that line both scans capture the last quoted text, the name
    of the transaction result, and decoding the line calls the factory
    with that name and returns the error of a bad hash; whatever the
    collaborators and the receiver, it ends with that error or with a
    panic of the factory.  So it does for the envelope decoded from
    [payload_metaData]. *)
Theorem decode_of_encoded_envelope :
  (decode payload_meta txm_zero =
     (mkDecoding alice_envelope ["Payment"], Ok tt) ∧
   TransactionWithMetaData_MarshalJSON alice_envelope = Ok alice_encoded ∧
   FindAllStringSubmatch txmTransactionTypeRegex alice_encoded
     = Some "tecPATH_DRY" ∧
   FindAllStringSubmatch txmHashRegex alice_encoded = Some "tecPATH_DRY" ∧
   decode alice_encoded txm_zero =
     (mkDecoding (mkTxm (Some (factory 0)) meta_zero 0) ["tecPATH_DRY"],
      Err (BadHash "tecPATH_DRY")) ∧
   (∀ (P : TransactionPackage) (t : TransactionWithMetaData Tx MetaData),
      (decode (H := P) alice_encoded t).2 = Err (BadHash "tecPATH_DRY") ∨
      ∃ p, (decode (H := P) alice_encoded t).2 = Panic p))
  ∧
  (decode payload_metaData txm_zero =
     (mkDecoding alice_nested ["Payment"], Ok tt) ∧
   TransactionWithMetaData_MarshalJSON alice_nested
     = Ok alice_nested_encoded ∧
   decode alice_nested_encoded txm_zero =
     (mkDecoding (mkTxm (Some (factory 0)) meta_zero 0) ["tecPATH_DRY"],
      Err (BadHash "tecPATH_DRY")) ∧
   (∀ (P : TransactionPackage) (t : TransactionWithMetaData Tx MetaData),
      (decode (H := P) alice_nested_encoded t).2
        = Err (BadHash "tecPATH_DRY") ∨
      ∃ p, (decode (H := P) alice_nested_encoded t).2 = Panic p)).
Proof.
  split.
  - split; [reflexivity |]. split; [reflexivity |].
    split; [reflexivity |]. split; [reflexivity |].
    split; [reflexivity |].
    intros P t.
    apply (decode_malformed_hash (H := P) alice_encoded
             "tecPATH_DRY" "tecPATH_DRY" t eq_refl eq_refl).
    by left.
  - split; [reflexivity |]. split; [reflexivity |].
    split; [reflexivity |].
    intros P t.
    apply (decode_malformed_hash (H := P) alice_nested_encoded
             "tecPATH_DRY" "tecPATH_DRY" t eq_refl eq_refl).
    by left.
Qed.

(** C7.  [Amount.UnmarshalJSON] on the text 5, a JSON number of one
    byte: the text is no object, the fallback slices [b[1:0]], and the
    method panics; it returns no error.  [Hash256.UnmarshalText] on a
    text of 66 hex digits panics as well, at the index 32 of the
    32 bytes. *)
Theorem Amount_UnmarshalJSON_panics :
  Amount_UnmarshalJSON "5" amount_zero =
    (amount_zero, Panic (SliceBoundsOutOfRange 1 0)) ∧
  (Amount_UnmarshalJSON "" amount_zero).2 =
    Panic (SliceBoundsOutOfRange 1 (-1)) ∧
  (Hash256_UnmarshalText 3 (h64 ++ "00") hashes).2 =
    Panic (IndexOutOfRange 32 32).
Proof. evaluate. Qed.

(** C8, the counterexample: a native value of magnitude 5 with the sign
    set is encoded as the text 5, which decodes into a new value as the
    native value 5 with the sign clear: not the original. *)
Lemma signed_native_Value_loses_sign :
  Native (mkValue true true 5 0) = true ∧
  Value_MarshalText (mkValue true true 5 0) = Ok "5" ∧
  Value_UnmarshalText "5" Value_zero = (mkValue true false 5 0, Ok tt) ∧
  (Value_UnmarshalText "5" Value_zero).1 ≠ mkValue true true 5 0.
Proof. evaluate. Qed.

(** [native_Value_roundtrip] at a million drops. *)
Lemma native_Value_roundtrip_witness :
  Value_MarshalText (NativeValue 1000000) = Ok "1000000" ∧
  Value_UnmarshalText "1000000" Value_zero = (NativeValue 1000000, Ok tt).
Proof.
  destruct (native_Value_roundtrip (H := amounts) (NativeValue 1000000)
              eq_refl eq_refl eq_refl
              ltac:(unfold maxUint64; cbn; lia)) as (Hm & _ & _ & Hu & _).
  split; [exact Hm | exact (Hu Value_zero)].
Defined.

End examples.

(** C9, the counterexample: the greatest signed 64-bit integer parses,
    and the time decoded is not that integer plus 946684800: the sum
    wrapped around. *)
Lemma RippleTime_wraps :
  ParseInt "9223372036854775807" = inr maxInt64 ∧
  RippleTime_UnmarshalJSON "9223372036854775807" (time_Unix 0)
    = (time_Unix (-9223372035908091009), Ok tt) ∧
  -9223372035908091009 ≠ maxInt64 + 946684800.
Proof. split; [reflexivity | split; [reflexivity | by vm_compute]]. Qed.

(** [RippleTime_decode] at the texts 86400 and soon. *)
Lemma RippleTime_decode_witness :
  RippleTime_UnmarshalJSON "86400" (time_Unix 0)
    = (time_Unix 946771200, Ok tt) ∧
  RippleTime_UnmarshalJSON "soon" (time_Unix 0)
    = (time_Unix 0, Err (BadRippleTime "soon")).
Proof.
  destruct (RippleTime_decode "86400" (time_Unix 0)) as (Hok & _).
  destruct (RippleTime_decode "soon" (time_Unix 0)) as (_ & Herr & _).
  split.
  - exact (proj1 (Hok 86400 eq_refl)).
  - exact (Herr ErrSyntax eq_refl).
Defined.

(** [value_receivers_leave_hash] at the text ff and a hash of each size,
    all bytes zero. *)
Lemma value_receivers_leave_hash_witness :
  (Hash128_UnmarshalText 1 "ff" Demo.hashes).1 !! 1%positive
    = Some (repeat 0 Hash128_size) ∧
  (Hash160_UnmarshalText 2 "ff" Demo.hashes).1 !! 2%positive
    = Some (repeat 0 Hash160_size) ∧
  (Hash256_UnmarshalText 3 "ff" Demo.hashes).1 !! 3%positive
    = Some (255 :: repeat 0 31).
Proof.
  split; [| split].
  - exact (proj1 (value_receivers_leave_hash Demo.hashes 1 "ff")).
  - exact (proj1 (proj2 (value_receivers_leave_hash Demo.hashes 2 "ff"))).
  - exact (proj2 (proj2 (value_receivers_leave_hash Demo.hashes 3 "ff"))
             (repeat 0 Hash256_size) eq_refl ltac:(cbn; lia)
             ltac:(intros [?|?]; discriminate)).
Defined.

(** ** The scans on a payload with one field on a line *)

Lemma drop_last_snoc (s : string) :
  s ≠ "" → ∃ c, s = drop_last s ++ String c "".
Proof.
  induction s as [|c s IH]; [done |]. intros _.
  destruct s as [|d s]; [by exists c |].
  destruct IH as [e He]; [done |]. exists e.
  change (drop_last (String c (String d s)))
    with (String c (drop_last (String d s))).
  cbn [append]. by rewrite <- He.
Qed.

(** A prefix that does not fit a text does not fit a longer one. *)
Lemma strip_prefix_None_app (l a x : string) :
  strip_prefix l a = None → (String.length l ≤ String.length a)%nat →
  strip_prefix l (a ++ x) = None.
Proof.
  revert a. induction l as [|c l IH]; intros a; cbn [strip_prefix]; [done |].
  destruct a as [|d a]; cbn [String.length append]; [lia |].
  destruct (Ascii.eqb c d); [| done].
  intros Hn Hlen. apply IH; [done | lia].
Qed.

Lemma length_drop_last (s : string) :
  String.length (drop_last s) = (String.length s - 1)%nat.
Proof.
  induction s as [|c s IH]; [done |].
  destruct s as [|d s]; [done |].
  change (drop_last (String c (String d s)))
    with (String c (drop_last (String d s))).
  cbn [String.length] in *. rewrite IH. lia.
Qed.

(** The leftmost match of a pattern that starts with a literal does not
    start before the first occurrence of the literal. *)
Lemma find_skip (l : string) (r : regex) (pre rest : string) :
  l ≠ "" →
  contains l (pre ++ drop_last l) = false →
  FindAllStringSubmatch (Cat (Lit l) r) (pre ++ l ++ rest) =
  FindAllStringSubmatch (Cat (Lit l) r) (l ++ rest).
Proof.
  intros Hl. destruct (drop_last_snoc l Hl) as [e He].
  induction pre as [|c pre IH]; [done |].
  cbn [append contains]. intros Hc.
  destruct (strip_prefix l (String c (pre ++ drop_last l))) eqn:E; [done |].
  cbn [FindAllStringSubmatch]. rewrite match_here_lit.
  assert (Hn : strip_prefix l (String c (pre ++ l ++ rest)) = None).
  { rewrite He at 2. rewrite app_assoc'.
    change (String c (pre ++ drop_last l ++ String e "" ++ rest))
      with (String c (pre ++ drop_last l ++ (String e "" ++ rest))).
    rewrite <- app_assoc'.
    apply (strip_prefix_None_app l (String c (pre ++ drop_last l))); [done |].
    cbn [String.length]. rewrite length_app, length_drop_last. lia. }
  rewrite Hn. destruct pre; apply IH; exact Hc.
Qed.

(** A greedy run over a text without quote and newline, in front of a
    continuation that wants a quote first: nothing of it is kept. *)
Lemma any_star_plain {R} (u v : string) (k : string → option R) :
  plain u →
  (∀ s, strip_prefix dq s = None → k s = None) →
  any_star (u ++ v) k = any_star v k.
Proof.
  intros [Hq Hn] Hk. induction u as [|c u IH]; [done |].
  cbn [occurs] in Hq, Hn.
  destruct (Ascii.eqb quote c) eqn:Eq; [done |].
  destruct (Ascii.eqb newline c) eqn:En; [done |].
  cbn [append any_star]. rewrite Ascii.eqb_sym, En, (IH Hq Hn).
  destruct (any_star v k); [done |].
  apply Hk. cbn. by rewrite Eq.
Qed.

(** At the end of a line such a continuation fails. *)
Lemma any_star_line_end {R} (u : string) (k : string → option R) :
  line_end u →
  (∀ s, strip_prefix dq s = None → k s = None) →
  any_star u k = None.
Proof.
  intros [-> | [post ->]] Hk; cbn; by apply Hk.
Qed.

(** [quoted_tail] on the rest of a line that holds one quoted text: the
    text is captured. *)
Lemma quoted_tail_line (gap name rest eol : string) :
  plain gap → plain name → plain rest → line_end eol →
  match_here quoted_tail (gap ++ quoted name ++ rest ++ eol) = Some name.
Proof.
  intros Hgap Hname Hrest Heol.
  unfold match_here, quoted_tail, quoted. cbn [rmatch].
  rewrite any_star_plain; [| done |].
  2:{ intros s Hs. by rewrite Hs. }
  rewrite !app_assoc'. cbn [append dq any_star]. 
  change (Ascii.eqb quote newline) with false. cbv iota.
  rewrite any_star_plain; [| done |].
  2:{ intros s Hs. by rewrite Hs. }
  cbn [append any_star]. change (Ascii.eqb quote newline) with false.
  cbv iota.
  rewrite any_star_plain; [| done |].
  2:{ intros s Hs. by rewrite Hs. }
  rewrite any_star_line_end; [| done |].
  2:{ intros s Hs. by rewrite Hs. }
  assert (Hdq : ∀ x, strip_prefix dq (String quote x) = Some x) by done.
  rewrite !Hdq.
  rewrite any_star_plain; [| done |].
  2:{ intros s Hs. by rewrite Hs. }
  rewrite any_star_line_end; [| done |].
  2:{ intros s Hs. by rewrite Hs. }
  rewrite any_star_plain; [| done |].
  2:{ intros s Hs. by rewrite Hs. }
  cbn [any_star]. change (Ascii.eqb quote newline) with false. cbv iota.
  rewrite any_star_plain; [| done |].
  2:{ intros s Hs. by rewrite Hs. }
  rewrite any_star_line_end; [| done |].
  2:{ intros s Hs. by rewrite Hs. }
  rewrite Hdq. by rewrite (take_app name (String quote (rest ++ eol))).
Qed.

(** X1.  A payload with one field on a line: the key with its colon
    occurs first at the front of a line part that goes on with a gap, the
    quoted value and a rest up to the end of the line, all three without
    quote and newline.  Then the scan for the key captures the value,
    whatever stands before and after.  So it is for both keys of the
    envelope, TransactionType and hash. *)
Theorem scan_value_on_line (key pre gap name rest eol : string) :
  let lit := quoted key ++ ":" in
  contains lit (pre ++ drop_last lit) = false →
  plain gap → plain name → plain rest → line_end eol →
  FindAllStringSubmatch (Cat (Lit lit) quoted_tail)
    (pre ++ lit ++ gap ++ quoted name ++ rest ++ eol) = Some name
  ∧ (key = "TransactionType" →
     FindAllStringSubmatch txmTransactionTypeRegex
       (pre ++ lit ++ gap ++ quoted name ++ rest ++ eol) = Some name)
  ∧ (key = "hash" →
     FindAllStringSubmatch txmHashRegex
       (pre ++ lit ++ gap ++ quoted name ++ rest ++ eol) = Some name).
Proof.
  intros lit Hfirst Hgap Hname Hrest Heol.
  assert (Hfind : FindAllStringSubmatch (Cat (Lit lit) quoted_tail)
            (pre ++ lit ++ gap ++ quoted name ++ rest ++ eol) = Some name).
  { rewrite find_skip; [| by destruct key | done].
    destruct (lit ++ gap ++ quoted name ++ rest ++ eol) eqn:E;
      cbn [FindAllStringSubmatch]; rewrite match_here_lit, <- E,
      strip_prefix_app, quoted_tail_line; done. }
  split; [done |]. split; intros ->; exact Hfind.
Qed.

(** ** More on the envelope codec *)

Section envelope_more.
Context `{TransactionPackage}.

(** X2.  On a payload of one line the scans for the type and for the
    hash capture the same text whenever both find one.  So a decode of
    such a payload succeeds only if the factory hands back a transaction
    for a type name that is well-formed hex, the very text taken for the
    hash; and when the text captured is malformed hex, the decode ends
    with the error of a bad hash, unless the factory panics. *)
Theorem one_line_payload (b : string) (t : txm_t) :
  one_line b →
  (∀ ty hx,
     FindAllStringSubmatch txmTransactionTypeRegex b = Some ty →
     FindAllStringSubmatch txmHashRegex b = Some hx →
     ty = hx)
  ∧
  ((decode b t).2 = Ok tt →
   ∃ c tx h,
     FindAllStringSubmatch txmTransactionTypeRegex b = Some c ∧
     FindAllStringSubmatch txmHashRegex b = Some c ∧
     GetTxFactoryByType c = Returns tx ∧
     hex_DecodeString c = (h, None))
  ∧
  (∀ c,
     FindAllStringSubmatch txmTransactionTypeRegex b = Some c →
     FindAllStringSubmatch txmHashRegex b = Some c →
     malformed_hex c →
     (decode b t).2 = Err (BadHash c) ∨ ∃ p, (decode b t).2 = Panic p).
Proof.
  intros Hb.
  assert (Hsame : ∀ ty hx,
     FindAllStringSubmatch txmTransactionTypeRegex b = Some ty →
     FindAllStringSubmatch txmHashRegex b = Some hx → ty = hx).
  { intros ty hx Hty Hh.
    pose proof (find_one_line _ _ _ Hb Hty).
    pose proof (find_one_line _ _ _ Hb Hh). congruence. }
  split; [done |]. split.
  - intros (ty & hx & tx & h & Hty & Hh & Hf & Hhex)%decode_Ok_found.
    pose proof (Hsame ty hx Hty Hh) as <-.
    by exists ty, tx, h.
  - intros c Hty Hh Hc. by apply (decode_malformed_hash b c c).
Qed.

(** X3.  The transaction factory is called at most once in a decode, and
    exactly when both the type and the hash have been found: with the
    type name found, whatever happens afterwards. *)
Theorem factory_called_once (b : string) (t : txm_t) :
  factory_calls (decode b t).1 =
  match FindAllStringSubmatch txmTransactionTypeRegex b,
        FindAllStringSubmatch txmHashRegex b with
  | Some txType, Some _ => [txType]
  | _, _ => []
  end.
Proof.
  destruct (FindAllStringSubmatch txmTransactionTypeRegex b) as [ty|] eqn:Hty.
  2:{ unfold decode, TransactionWithMetaData_UnmarshalJSON. by rewrite Hty. }
  destruct (FindAllStringSubmatch txmHashRegex b) as [hx|] eqn:Hh.
  2:{ by rewrite (decode_missing_hash b ty t Hty Hh). }
  rewrite (decode_found b ty hx t Hty Hh).
  destruct (GetTxFactoryByType ty) as [tx|]; [| done].
  destruct (hex_DecodeString hx) as [h [e|]]; [done |].
  destruct (json_Unmarshal_Transaction b (SetHash h tx)) as [tx' [[]| |]];
    [| done | done].
  cbv zeta.
  destruct (String.eqb _ "meta"); [by destruct (json_Unmarshal_txmNormal b _) |].
  destruct (String.eqb _ "metaData"); [| done].
  by destruct (json_Unmarshal_txmLedger b).
Qed.

(** X4.  What a decode leaves alone.  When the payload does not hold the
    quoted key meta, the ledger sequence of the receiver is what it was,
    whatever the outcome: the branch of the key metaData sets the
    metadata only.  When it holds neither key, the metadata is what it
    was as well. *)
Theorem decode_leaves_alone (b : string) (t : txm_t) :
  contains (quoted "meta") b = false →
  LedgerSequence (txm (decode b t).1) = LedgerSequence t ∧
  (contains (quoted "metaData") b = false →
   MetaData_of (txm (decode b t).1) = MetaData_of t).
Proof.
  intros Hmeta.
  destruct (FindAllStringSubmatch txmTransactionTypeRegex b) as [ty|] eqn:Hty.
  2:{ unfold decode, TransactionWithMetaData_UnmarshalJSON. by rewrite Hty. }
  destruct (FindAllStringSubmatch txmHashRegex b) as [hx|] eqn:Hh.
  2:{ by rewrite (decode_missing_hash b ty t Hty Hh). }
  rewrite (decode_found b ty hx t Hty Hh).
  destruct (GetTxFactoryByType ty) as [tx|]; [| done].
  destruct (hex_DecodeString hx) as [h [e|]]; [done |].
  destruct (json_Unmarshal_Transaction b (SetHash h tx)) as [tx' [[]| |]];
    [| done | done].
  cbv zeta.
  destruct (FindAllStringSubmatch txmMetaTypeRegex b) as [m|] eqn:Hm;
    [| done].
  apply find_meta_cases in Hm as [[_ ?]|[-> Hc]]; [congruence |].
  split; [| intros Hc'; congruence].
  cbn. by destruct (json_Unmarshal_txmLedger b).
Qed.

(** X5.  A failed decode and its receiver.  The receiver is untouched
    when the type or the hash is not found, and when the factory panics.
    When the factory hands back a transaction and the hash found is
    malformed hex, the bad-hash error comes after the transaction of the
    receiver has been replaced by the one of the factory. *)
Theorem decode_receiver_on_failure (b : string) (t : txm_t) :
  (FindAllStringSubmatch txmTransactionTypeRegex b = None ∨
   FindAllStringSubmatch txmHashRegex b = None →
   txm (decode b t).1 = t ∧ ∃ e, (decode b t).2 = Err e)
  ∧
  (∀ ty hx p,
     FindAllStringSubmatch txmTransactionTypeRegex b = Some ty →
     FindAllStringSubmatch txmHashRegex b = Some hx →
     GetTxFactoryByType ty = Panics p →
     decode b t = (mkDecoding t [ty], Panic p))
  ∧
  (∀ ty hx tx,
     FindAllStringSubmatch txmTransactionTypeRegex b = Some ty →
     FindAllStringSubmatch txmHashRegex b = Some hx →
     GetTxFactoryByType ty = Returns tx →
     malformed_hex hx →
     decode b t =
       (mkDecoding (mkTxm (Some tx) (MetaData_of t) (LedgerSequence t)) [ty],
        Err (BadHash hx))).
Proof.
  assert (Hno_type : FindAllStringSubmatch txmTransactionTypeRegex b = None →
            decode b t = (mkDecoding t [], Err MissingTransactionType)).
  { intros Hty. unfold decode, TransactionWithMetaData_UnmarshalJSON.
    by rewrite Hty. }
  split; [| split].
  - intros [Hty | Hh].
    + rewrite (Hno_type Hty). split; [done | by eexists].
    + destruct (FindAllStringSubmatch txmTransactionTypeRegex b) as [ty|]
        eqn:Hty.
      * rewrite (decode_missing_hash b ty t Hty Hh). split; [done | by eexists].
      * rewrite (Hno_type eq_refl). split; [done | by eexists].
  - intros ty hx p Hty Hh Hf.
    by rewrite (decode_found b ty hx t Hty Hh), Hf.
  - intros ty hx tx Hty Hh Hf [e He]%hex_DecodeString_error.
    rewrite (decode_found b ty hx t Hty Hh), Hf.
    destruct (hex_DecodeString hx) as [h e']. cbn in He.
    by subst e'.
Qed.

(** X14.  Encoding, then decoding.  Take an envelope whose transaction
    and metadata marshal to texts of one line, as the compact texts of
    encoding/json are, with a hash of bytes.  Then the encoder returns a
    text of one line, in which the scans for the type and for the hash
    capture the same text.  Decoding it succeeds only if the factory
    hands back a transaction for a type name that is well-formed hex, the
    text taken for the hash as well; with a factory that has a
    transaction for no such name, the text written is never decoded with
    success. *)
Theorem encoded_decodes_by_hex_name (t t0 : txm_t) (x : Tx)
    (tx meta : string) :
  Transaction t = Some x →
  json_Marshal_Transaction (Some x) = Ok tx → tx ≠ "" → one_line tx →
  json_Marshal_MetaData (MetaData_of t) = Ok meta → one_line meta →
  is_bytes (Hash x) →
  ∃ out, TransactionWithMetaData_MarshalJSON t = Ok out ∧ one_line out ∧
    ((decode out t0).2 = Ok tt →
     ∃ c tx' h,
       FindAllStringSubmatch txmTransactionTypeRegex out = Some c ∧
       FindAllStringSubmatch txmHashRegex out = Some c ∧
       GetTxFactoryByType c = Returns tx' ∧
       hex_DecodeString c = (h, None)) ∧
    ((∀ name tx', GetTxFactoryByType name = Returns tx' →
                  malformed_hex name) →
     (decode out t0).2 ≠ Ok tt).
Proof.
  intros Hx Htx Hne Hl1 Hmeta Hl2 Hbytes.
  eexists. split; [| split].
  - unfold TransactionWithMetaData_MarshalJSON, txm_Hash, but_last. run.
    rewrite Hx, Htx, Hmeta. destruct tx; [done | reflexivity].
  - unfold Sprintf_txmFormat, quoted.
    repeat apply one_line_app;
      try (apply one_line_FormatUint);
      try (by apply one_line_hex);
      try done.
    by apply occurs_drop_last.
  - match goal with |- (?P → ?Q) ∧ _ => assert (Hok : P → Q) end.
    { intros (ty & hx & tx' & h & Hty & Hh & Hf & Hhex)%decode_Ok_found.
      assert (ty = hx) as <-.
      { assert (Hl : one_line (Sprintf_txmFormat (drop_last tx)
                        (Hash256_String (Hash x)) (LedgerSequence t)
                        (LedgerSequence t) meta)).
        { unfold Sprintf_txmFormat, quoted.
          repeat apply one_line_app;
            try (apply one_line_FormatUint);
            try (by apply one_line_hex);
            try done.
          by apply occurs_drop_last. }
        pose proof (find_one_line _ _ _ Hl Hty).
        pose proof (find_one_line _ _ _ Hl Hh). congruence. }
      by exists ty, tx', h. }
    split; [exact Hok |].
    intros Hnames (c & tx' & h & _ & _ & Hf & Hhex)%Hok.
    destruct (proj1 (hex_DecodeString_error c) (Hnames c tx' Hf)) as [e He].
    rewrite Hhex in He. done.
Qed.

End envelope_more.

(** X6.  The scan for the metadata key returns meta or metaData and
    nothing else, and it returns a key only if that key, between quotes,
    occurs in the text; it returns nil exactly when neither occurs. *)
Theorem meta_scan_sound (b : string) :
  (∀ m, FindAllStringSubmatch txmMetaTypeRegex b = Some m →
        (m = "meta" ∧ contains (quoted "meta") b = true) ∨
        (m = "metaData" ∧ contains (quoted "metaData") b = true))
  ∧
  (FindAllStringSubmatch txmMetaTypeRegex b = None ↔
   contains (quoted "meta") b = false ∧
   contains (quoted "metaData") b = false).
Proof.
  split; [intros m; apply find_meta_cases |].
  split.
  - intros Hn.
    destruct (contains (quoted "meta") b) eqn:E1.
    { destruct (find_meta_some b) as [m Hm]; [by rewrite E1 | congruence]. }
    destruct (contains (quoted "metaData") b) eqn:E2; [| done].
    destruct (find_meta_some b) as [m Hm]; [by rewrite E1, E2 | congruence].
  - intros [H1 H2]. by apply find_meta_none.
Qed.

(** ** Hex texts of hashes, keys and byte strings *)

Lemma fromHexChar_hexdigit (n : Z) :
  0 <= n < 16 → fromHexChar (hexdigit n) = Some n.
Proof.
  intros Hn. unfold fromHexChar, hexdigit.
  destruct (n <? 10) eqn:E; rewrite byte_of_char_of by lia.
  - destruct ((48 <=? 48 + n) && (48 + n <=? 57)) eqn:E1; [f_equal; lia |].
    apply andb_false_iff in E1 as [?|?]; lia.
  - destruct ((48 <=? 97 + (n - 10)) && (97 + (n - 10) <=? 57)) eqn:E1.
    { apply andb_true_iff in E1 as [? ?]. lia. }
    destruct ((97 <=? 97 + (n - 10)) && (97 + (n - 10) <=? 102)) eqn:E2;
      [f_equal; lia |].
    apply andb_false_iff in E2 as [?|?]; lia.
Qed.

Lemma byte_split (b : Z) :
  0 <= b < 256 → Z.lor (Z.shiftl (Z.shiftr b 4) 4) (Z.land b 15) = b.
Proof.
  intros Hb.
  assert (Hall : forallb
            (λ b, Z.lor (Z.shiftl (Z.shiftr b 4) 4) (Z.land b 15) =? b)
            (List.map Z.of_nat (List.seq 0 256)) = true)
    by (vm_compute; reflexivity).
  rewrite forallb_forall in Hall. apply Z.eqb_eq, Hall.
  apply in_map_iff. exists (Z.to_nat b). split; [lia |].
  apply in_seq. lia.
Qed.

Lemma nibbles (b : Z) :
  0 <= b < 256 → 0 <= Z.shiftr b 4 < 16 ∧ 0 <= Z.land b 15 < 16.
Proof.
  intros Hb. split.
  - rewrite Z.shiftr_div_pow2 by lia. change (2 ^ 4) with 16.
    split; [apply Z.div_pos; lia | apply Z.div_lt_upper_bound; lia].
  - change 15 with (Z.ones 4). rewrite Z.land_ones by lia.
    apply Z.mod_pos_bound. lia.
Qed.

(** [hex.DecodeString] reads back what [hex.EncodeToString] writes. *)
Lemma hex_DecodeString_EncodeToString (a : list Z) :
  is_bytes a → hex_DecodeString (hex_EncodeToString a) = (a, None).
Proof.
  induction 1 as [|b a Hb _ IH]; [done |].
  cbn [hex_EncodeToString hex_DecodeString].
  destruct (nibbles b Hb) as [Hhi Hlo].
  rewrite !fromHexChar_hexdigit, IH, byte_split by done. done.
Qed.

(** Encoding a hash: the text of the array, in a heap that differs from
    the one before by the copy the value receiver is. *)
Lemma MarshalText_runs (b2h : list Z → string) (σ : heap) (src : positive)
    (a : list Z) :
  σ !! src = Some a →
  Hash256_MarshalText b2h src σ = (<[fresh (dom σ) := a]> σ, Ok (b2h a)) ∧
  ∀ l x, σ !! l = Some x → (<[fresh (dom σ) := a]> σ) !! l = Some x.
Proof.
  intros Hsrc. split.
  - unfold Hash256_MarshalText, load, alloc. run. rewrite Hsrc.
    by rewrite lookup_insert_eq.
  - intros l x Hl. rewrite lookup_insert_ne; [done |].
    intros <-. apply (is_fresh (dom σ)). apply elem_of_dom. by eexists.
Qed.

(** Decoding with a value receiver a text that fits: no error, and the
    caller's array is what it was. *)
Lemma value_receiver_runs (σ : heap) (dst : positive) (a0 : list Z)
    (text : string) :
  σ !! dst = Some a0 →
  (hex_DecodeString text).2 = None →
  (length (hex_DecodeString text).1 ≤ length a0)%nat →
  (Hash128_UnmarshalText dst text σ).2 = Ok tt ∧
  (Hash128_UnmarshalText dst text σ).1 !! dst = Some a0.
Proof.
  intros Hdst Hok Hfit. split.
  - unfold Hash128_UnmarshalText, load, alloc. run. rewrite Hdst.
    rewrite (hex_Decode_fits _ text 0 a0 _ (lookup_insert_eq _ _ _))
      by (cbn; lia).
    by rewrite Hok.
  - by rewrite value_receiver_frame.
Qed.

(** X7.  Encoding a hash and decoding the text into another hash of the
    same size, for a [b2h] that writes the hex of the array.  With
    [Hash256], whose decoder has a pointer receiver, the target holds the
    bytes of the source afterwards.  With [Hash128] and [Hash160], whose
    decoders have value receivers, the decoder returns no error and the
    target holds what it held. *)
Theorem hash_text_roundtrip (b2h : list Z → string) (σ : heap)
    (src dst : positive) (a a0 : list Z) :
  hex_DecodeString (b2h a) = (a, None) →
  σ !! src = Some a → σ !! dst = Some a0 → length a = length a0 →
  let run256 := (text ← Hash256_MarshalText b2h src ;
                 Hash256_UnmarshalText dst text) σ in
  let run128 := (text ← Hash128_MarshalText b2h src ;
                 Hash128_UnmarshalText dst text) σ in
  let run160 := (text ← Hash160_MarshalText b2h src ;
                 Hash160_UnmarshalText dst text) σ in
  (run256.2 = Ok tt ∧ run256.1 !! dst = Some a) ∧
  (run128.2 = Ok tt ∧ run128.1 !! dst = Some a0) ∧
  (run160.2 = Ok tt ∧ run160.1 !! dst = Some a0).
Proof.
  intros Hhex Hsrc Hdst Hlen.
  destruct (MarshalText_runs b2h σ src a Hsrc) as [Hm Hkeep].
  pose proof (Hkeep dst a0 Hdst) as Hdst'.
  assert (Hv : (Hash128_UnmarshalText dst (b2h a) (<[fresh (dom σ) := a]> σ)).2
               = Ok tt ∧
               (Hash128_UnmarshalText dst (b2h a) (<[fresh (dom σ) := a]> σ)).1
                 !! dst = Some a0).
  { apply value_receiver_runs; rewrite ?Hhex; cbn; [done | done | lia]. }
  cbv zeta. split; [| split].
  - assert (H256 : (text ← Hash256_MarshalText b2h src ;
                    Hash256_UnmarshalText dst text) σ =
                   (<[dst := list_inserts 0 a a0]> (<[fresh (dom σ) := a]> σ),
                    Ok tt)).
    { change ((text ← Hash256_MarshalText b2h src ;
               Hash256_UnmarshalText dst text) σ)
        with (bind (Hash256_MarshalText b2h src)
                (λ text, Hash256_UnmarshalText dst text) σ).
      unfold bind at 1. rewrite Hm.
      unfold Hash256_UnmarshalText. run.
      rewrite (hex_Decode_fits dst (b2h a) 0 a0 _ Hdst')
        by (rewrite Hhex; cbn; lia).
      by rewrite Hhex. }
    rewrite H256. cbn [fst snd]. split; [done |].
    rewrite lookup_insert_eq. f_equal.
    rewrite <- (app_nil_r a) at 1. by apply list_inserts_0_l.
  - assert (H128 : (text ← Hash128_MarshalText b2h src ;
                    Hash128_UnmarshalText dst text) σ =
                   Hash128_UnmarshalText dst (b2h a)
                     (<[fresh (dom σ) := a]> σ)).
    { change ((text ← Hash128_MarshalText b2h src ;
               Hash128_UnmarshalText dst text) σ)
        with (bind (Hash256_MarshalText b2h src)
                (λ text, Hash128_UnmarshalText dst text) σ).
      unfold bind at 1. by rewrite Hm. }
    rewrite H128. exact Hv.
  - assert (H160 : (text ← Hash160_MarshalText b2h src ;
                    Hash160_UnmarshalText dst text) σ =
                   Hash128_UnmarshalText dst (b2h a)
                     (<[fresh (dom σ) := a]> σ)).
    { change ((text ← Hash160_MarshalText b2h src ;
               Hash160_UnmarshalText dst text) σ)
        with (bind (Hash256_MarshalText b2h src)
                (λ text, Hash128_UnmarshalText dst text) σ).
      unfold bind at 1. by rewrite Hm. }
    rewrite H160. exact Hv.
Qed.

(** A well-formed text decodes to half as many bytes. *)
Lemma hex_DecodeString_half (s : string) :
  (hex_DecodeString s).2 = None →
  (2 * length (hex_DecodeString s).1 = String.length s)%nat.
Proof.
  induction s as [|p|p q s IH] using string_pairs_ind.
  - done.
  - cbn. by destruct (fromHexChar p).
  - cbn [hex_DecodeString String.length].
    destruct (fromHexChar p) as [a|]; [| done].
    destruct (fromHexChar q) as [b|]; [| done].
    destruct (hex_DecodeString s) as [bs e]. cbn in *.
    intros He. specialize (IH He). lia.
Qed.

(** X8.  A [VariableLength] has no size to respect: every well-formed
    hex text is decoded, whatever its length, the empty text too, into
    half as many bytes, and a malformed text gives the error of
    encoding/hex; the text of a byte string, for a [b2h] that writes its
    hex, decodes to the byte string, whatever the receiver held. *)
Theorem VariableLength_text (b2h : list Z → string) (b : string)
    (v v0 : list Z) :
  (¬ malformed_hex b →
   VariableLength_UnmarshalText b v0 = ((hex_DecodeString b).1, Ok tt) ∧
   (2 * length (hex_DecodeString b).1 = String.length b)%nat)
  ∧
  (malformed_hex b →
   ∃ e, (VariableLength_UnmarshalText b v0).2 = Err (HexError e))
  ∧
  (hex_DecodeString (b2h v) = (v, None) →
   VariableLength_MarshalText b2h v = Ok (b2h v) ∧
   VariableLength_UnmarshalText (b2h v) v0 = (v, Ok tt)).
Proof.
  pose proof (hex_DecodeString_error b) as Herr.
  pose proof (hex_DecodeString_half b) as Hhalf.
  unfold VariableLength_UnmarshalText. run.
  split; [| split].
  - intros Hwf. destruct (hex_DecodeString b) as [bs [e|]]; cbn in *.
    + destruct Hwf. apply Herr. by eexists.
    + split; [done | by apply Hhalf].
  - intros [e He]%Herr. destruct (hex_DecodeString b) as [bs e'].
    cbn in He. subst e'. by exists e.
  - intros Hv. split; [done |]. by rewrite Hv.
Qed.

(** A text with more pairs of hex digits than the array has bytes:
    [hex.Decode] fills the array and then writes at the index one past
    its end. *)
Lemma hex_Decode_overflow (l : positive) (n : nat) :
  ∀ (src : string) (i : nat) (a : list Z) (σ : heap),
  σ !! l = Some a →
  (i + n = length a)%nat →
  (2 * n + 2 ≤ String.length src)%nat →
  all_hex (take (2 * n + 2) src) = true →
  (hex_Decode l i src σ).2 =
    Panic (IndexOutOfRange (Z.of_nat (length a)) (Z.of_nat (length a))).
Proof.
  induction n as [|n IH]; intros src i a σ Hl Hi Hlen Hhex.
  - destruct src as [|p [|q rest]]; cbn in Hlen; [lia | lia |].
    cbn in Hhex. unfold is_hex_digit in Hhex.
    cbn [hex_Decode].
    destruct (fromHexChar p); [| done].
    destruct (fromHexChar q); [| done].
    run. unfold store_index. rewrite Hl.
    destruct (decide (i < length a)%nat); [lia |].
    cbn. repeat f_equal; lia.
  - destruct src as [|p [|q rest]]; cbn in Hlen; [lia | lia |].
    replace (2 * S n + 2)%nat with (S (S (2 * n + 2))) in Hhex by lia.
    cbn [take all_hex] in Hhex. unfold is_hex_digit in Hhex.
    cbn [hex_Decode].
    destruct (fromHexChar p); [| done].
    destruct (fromHexChar q); [| done].
    cbn in Hhex.
    run. unfold store_index. rewrite Hl.
    destruct (decide (i < length a)%nat); [| lia].
    specialize (IH rest (S i) (<[i := Z.lor (z ≪ 4) z0]> a)
                  (<[l := <[i := Z.lor (z ≪ 4) z0]> a]> σ)).
    rewrite length_insert in IH.
    rewrite <- IH; [| apply lookup_insert_eq | lia | lia | done].
    by destruct (hex_Decode l (S i) rest _) as [? [?| |]].
Qed.

(** X9.  The decoders with a pointer receiver on a text that is too
    long: when the text starts with more pairs of hex digits than the
    array has bytes, 66 digits or more for a [Hash256],
    [Hash256.UnmarshalText] and [PublicKey.UnmarshalText] panic with an
    index out of range, at the index that is the size of the array. *)
Theorem pointer_receiver_overflow (σ : heap) (h : positive) (a : list Z)
    (b : string) :
  σ !! h = Some a →
  (2 * length a + 2 ≤ String.length b)%nat →
  all_hex (take (2 * length a + 2) b) = true →
  (Hash256_UnmarshalText h b σ).2 =
    Panic (IndexOutOfRange (Z.of_nat (length a)) (Z.of_nat (length a))) ∧
  (PublicKey_UnmarshalText h b σ).2 =
    Panic (IndexOutOfRange (Z.of_nat (length a)) (Z.of_nat (length a))).
Proof.
  intros Hh Hlen Hhex.
  pose proof (hex_Decode_overflow h (length a) b 0 a σ Hh eq_refl Hlen Hhex)
    as Hp.
  unfold Hash256_UnmarshalText, PublicKey_UnmarshalText. run.
  destruct (hex_Decode h 0 b σ) as [σ' [?| |]]; cbn in *;
    [discriminate Hp | discriminate Hp |].
  injection Hp as ->. by split.
Qed.

(** ** More on amounts, accounts and times *)

Lemma substring_all (s t : string) :
  substring 0 (String.length s) (s ++ t) = s.
Proof.
  induction s as [|c s IH]; cbn [String.length append substring].
  - by destruct t.
  - by rewrite IH.
Qed.

(** The slice that drops the two quotes of a quoted text. *)
Lemma slice_quoted {S} (s : string) (σ : S) :
  slice (quoted s) 1 (Z.of_nat (String.length (quoted s)) - 1) σ = (σ, Ok s).
Proof.
  unfold slice, quoted. rewrite !length_app. cbn [dq String.length].
  destruct (_ && _) eqn:E.
  2:{ rewrite !andb_false_iff, !Z.leb_gt in E. lia. }
  run. do 2 f_equal.
  replace (Z.to_nat (Z.of_nat (1 + (String.length s + 1)) - 1 - 1))
    with (String.length s) by lia.
  cbn [append Z.to_nat Pos.to_nat Pos.iter_op Nat.add substring].
  apply substring_all.
Qed.

Section amount_more.
Context `{AmountPackage}.
Variable json_Marshal_amountJSON : Value → Currency → Account → outcome string.

(** X10.  A native amount round trip.  A native amount of magnitude [m]
    is encoded as the decimal text of [m] between quotes; when
    encoding/json refuses that text as an object, as it does for a JSON
    string, decoding it into an amount gives the native value of
    magnitude [m] and leaves currency and issuer of the receiver as they
    were. *)
Theorem native_Amount_roundtrip (a a0 : Amount) (e : error) :
  Native (AValue a) = true →
  0 <= Num (AValue a) <= maxUint64 →
  json_Unmarshal_map (quoted (FormatUint (Num (AValue a)))) = Err e →
  Amount_MarshalJSON json_Marshal_amountJSON a
    = Ok (quoted (FormatUint (Num (AValue a)))) ∧
  Amount_UnmarshalJSON (quoted (FormatUint (Num (AValue a)))) a0
    = (mkAmount (NativeValue (Num (AValue a))) (ACurrency a0) (AIssuer a0),
       Ok tt).
Proof.
  intros Hnat Hm He. split.
  - unfold Amount_MarshalJSON. by rewrite Hnat.
  - unfold Amount_UnmarshalJSON. rewrite He.
    unfold on_Value, zoom. run. cbn [AValue ACurrency AIssuer].
    rewrite slice_quoted. cbn [AValue ACurrency AIssuer].
    unfold Value_UnmarshalText, Value_Parse. run. cbn.
    by rewrite ParseUint_FormatUint.
Qed.

(** X11.  [Amount.UnmarshalJSON] on a text of two bytes or more does not
    panic, as long as encoding/json and the address codec do not: the
    slice of the fallback is within bounds. *)
Theorem Amount_UnmarshalJSON_no_panic (b : string) (a : Amount) :
  (2 ≤ String.length b)%nat →
  (∀ p, json_Unmarshal_map b ≠ Panic p) →
  (∀ s p, crypto_NewRippleHash s ≠ Panic p) →
  ∀ p, (Amount_UnmarshalJSON b a).2 ≠ Panic p.
Proof.
  intros Hlen Hjson Hcodec p.
  unfold Amount_UnmarshalJSON, on_Value, on_Currency, on_Issuer, zoom. run.
  cbn [AValue ACurrency AIssuer].
  destruct (json_Unmarshal_map b) as [m|e|q] eqn:Ej.
  - unfold Currency_UnmarshalText. run.
    destruct (NewCurrency (index m "currency")) as [c [ec|]]; cbn; [done |].
    unfold Value_Parse. run. cbn.
    destruct (parse_decimal (index m "value")) as [[[neg mant] ex]|]; cbn;
      [| done].
    unfold Account_UnmarshalText. run.
    destruct (crypto_NewRippleHash (index m "issuer")) as [[v pl]|ei|q] eqn:Ec;
      cbn; [| done |].
    + by destruct (negb (v =? RIPPLE_ACCOUNT_ID)).
    + by destruct (Hcodec _ _ Ec).
  - unfold slice.
    destruct (_ && _) eqn:E.
    2:{ rewrite !andb_false_iff, !Z.leb_gt in E. lia. }
    run. cbn. unfold Value_UnmarshalText, Value_Parse. run. cbn.
    by destruct (ParseUint _).
  - by destruct (Hjson q).
Qed.

(** X12.  [Account.UnmarshalText] keeps the size of the account, whatever
    the address codec returns; when it does not succeed the account is
    what it was; and a payload of the size of the account, under the
    account version, becomes the account.  Another version is refused
    with the error that names it. *)
Theorem Account_UnmarshalText_keeps_size (text : string) (a : Account) :
  length (Account_UnmarshalText text a).1 = length a ∧
  ((Account_UnmarshalText text a).2 ≠ Ok tt →
   (Account_UnmarshalText text a).1 = a) ∧
  (∀ v pl, crypto_NewRippleHash text = Ok (v, pl) →
     (v ≠ RIPPLE_ACCOUNT_ID →
      Account_UnmarshalText text a = (a, Err (IncorrectVersion v))) ∧
     (v = RIPPLE_ACCOUNT_ID → length pl = length a →
      Account_UnmarshalText text a = (pl, Ok tt))).
Proof.
  unfold Account_UnmarshalText. run.
  destruct (crypto_NewRippleHash text) as [[v pl]| |] eqn:Ec; cbn.
  2,3: by repeat split.
  destruct (v =? RIPPLE_ACCOUNT_ID) eqn:Ev; cbn.
  - apply Z.eqb_eq in Ev. split; [| split].
    + unfold copy. rewrite List.length_app, length_take, length_drop. lia.
    + done.
    + intros v' pl' [= <- <-]. split; [done |]. intros _ Hpl.
      f_equal. unfold copy.
      rewrite firstn_all2 by lia. rewrite skipn_all2 by lia.
      apply app_nil_r.
  - apply Z.eqb_neq in Ev. split; [done |]. split; [done |].
    intros v' pl' [= <- <-]. split; [done |]. done.
Qed.

End amount_more.

(** The digits that [strconv.ParseInt] reads: the text, or the text
    after one sign. *)
Lemma ParseInt_digits (s : string) :
  ∃ (neg : bool) (digits : string),
    ParseInt s =
      match parse_digits digits with
      | None => inl ErrSyntax
      | Some n =>
          if neg
          then (if n <=? 2 ^ 63 then inr (- n) else inl ErrRange)
          else (if n <=? maxInt64 then inr n else inl ErrRange)
      end ∧
    (digits = s ∨
     ∃ c, s = String c digits ∧ (c = "+"%char ∨ c = "-"%char)).
Proof.
  destruct s as [|a s]; [by exists false, ""; split; [| left] |].
  destruct a as [[] [] [] [] [] [] [] []];
    first
      [ by eexists false, (String _ s); split; [| left]
      | by exists false, s; split;
          [| right; eexists; split; [reflexivity | by left]]
      | by exists true, s; split;
          [| right; eexists; split; [reflexivity | by right]] ].
Qed.

(** X13.  [RippleTime.UnmarshalJSON] takes digits only, after at most one
    sign: a text that holds any other character, such as a quote, a
    blank, a point or an exponent, is refused with the error of a bad
    time, and so is the empty text; the receiver is what it was. *)
Theorem RippleTime_rejects (b : string) (c : ascii) (t0 : RippleTime) :
  RippleTime_UnmarshalJSON "" t0 = (t0, Err (BadRippleTime "")) ∧
  (occurs c b = true → is_digit c = false →
   c ≠ "+"%char → c ≠ "-"%char →
   RippleTime_UnmarshalJSON b t0 = (t0, Err (BadRippleTime b))).
Proof.
  split; [done |]. intros Hc Hd Hplus Hminus.
  destruct (ParseInt_digits b) as (neg & digits & Hp & Hdigits).
  assert (Hocc : occurs c digits = true).
  { destruct Hdigits as [-> | (s & -> & Hs)]; [done |].
    cbn [occurs] in Hc. destruct (Ascii.eqb c s) eqn:E; [| done].
    apply Ascii.eqb_eq in E. subst s. by destruct Hs. }
  assert (Hnone : parse_digits digits = None).
  { unfold parse_digits. destruct digits as [|d ds]; [done |].
    destruct (NilEmpty.uint_of_string (String d ds)) as [u|] eqn:E; [| done].
    apply NilEmpty.sus in E.
    rewrite <- E, occurs_string_of_uint in Hocc; [done |].
    unfold is_digit in Hd. apply andb_false_iff in Hd as [Hd|Hd].
    - apply orb_true_iff. left. apply Z.ltb_lt. apply Z.leb_gt in Hd. lia.
    - apply orb_true_iff. right. apply Z.ltb_lt. apply Z.leb_gt in Hd. lia. }
  unfold RippleTime_UnmarshalJSON. rewrite Hp, Hnone. done.
Qed.

(** ** The further properties on the instances *)

(** No type name of the instance is well-formed hex. *)
Lemma Demo_nil_factory_names (name : string) (x : Demo.tx) :
  GetTxFactoryByType (H := Demo.package_nil) name = Returns x →
  malformed_hex name.
Proof.
  unfold GetTxFactoryByType. cbn [txTypes TxFactory_other Demo.package_nil].
  destruct (Demo.types !! name) as [c|] eqn:Hc; [| done]. intros _.
  unfold Demo.types in Hc.
  rewrite !lookup_insert_Some, lookup_empty in Hc.
  destruct Hc as [[<- _]|[_ [[<- _]|[_ [[<- _]|[_ ?]]]]]];
    [by right | by right | by right | done].
Qed.

(** [scan_value_on_line] at the payload without metadata, for the line of
    the type and for the line of the hash, which is the last but one. *)
Lemma scan_value_on_line_witness :
  FindAllStringSubmatch txmTransactionTypeRegex Demo.payload_plain
    = Some "Payment" ∧
  FindAllStringSubmatch txmHashRegex Demo.payload_plain = Some Demo.h64.
Proof.
  split.
  - exact (proj1 (proj2 (scan_value_on_line "TransactionType"
      (js "{
  'Account': 'rAlice',
  ") " " "Payment" ","
      (js "
  'hash': '00112233445566778899AABBCCDDEEFF00112233445566778899aabbccddeeff'
}")
      eq_refl (conj eq_refl eq_refl) (conj eq_refl eq_refl)
      (conj eq_refl eq_refl) (or_intror (ex_intro _ _ eq_refl)))) eq_refl).
  - exact (proj2 (proj2 (scan_value_on_line "hash"
      (js "{
  'Account': 'rAlice',
  'TransactionType': 'Payment',
  ") " " Demo.h64 ""
      (js "
}")
      eq_refl (conj eq_refl eq_refl) (conj eq_refl eq_refl)
      (conj eq_refl eq_refl) (or_intror (ex_intro _ _ eq_refl)))) eq_refl).
Defined.

(** [one_line_payload] at the line that the encoder writes for the
    envelope of the instance, and at a line that ends with the hash,
    which the instance decodes: its factory has a transaction for the
    hex text. *)
Lemma one_line_payload_witness :
  ((decode Demo.alice_encoded txm_zero).2 = Err (BadHash "tecPATH_DRY") ∨
   ∃ p, (decode Demo.alice_encoded txm_zero).2 = Panic p) ∧
  ∃ c x h,
    FindAllStringSubmatch txmTransactionTypeRegex Demo.payload_hash_last
      = Some c ∧
    FindAllStringSubmatch txmHashRegex Demo.payload_hash_last = Some c ∧
    GetTxFactoryByType c = Returns x ∧
    hex_DecodeString c = (h, None).
Proof.
  split.
  - exact (proj2 (proj2 (one_line_payload (H := Demo.package)
                           Demo.alice_encoded txm_zero eq_refl))
             "tecPATH_DRY" eq_refl eq_refl (or_introl eq_refl)).
  - exact (proj1 (proj2 (one_line_payload (H := Demo.package)
                           Demo.payload_hash_last txm_zero eq_refl))
             eq_refl).
Defined.

(** [decode_leaves_alone] at the payload with the key metaData. *)
Lemma decode_leaves_alone_witness :
  LedgerSequence (txm (decode Demo.payload_metaData txm_zero).1) = 0.
Proof.
  exact (proj1 (decode_leaves_alone (H := Demo.package)
                  Demo.payload_metaData txm_zero eq_refl)).
Defined.

(** [decode_receiver_on_failure] at the payload with the hash 0g. *)
Lemma decode_receiver_on_failure_witness :
  decode Demo.payload_bad_hash txm_zero =
    (mkDecoding (mkTxm (Some (Demo.factory 0)) Demo.meta_zero 0) ["Payment"],
     Err (BadHash "0g")).
Proof.
  exact (proj2 (proj2 (decode_receiver_on_failure (H := Demo.package)
                         Demo.payload_bad_hash txm_zero))
           "Payment" "0g" (Demo.factory 0)
           eq_refl eq_refl eq_refl (or_intror eq_refl)).
Defined.

(** [meta_scan_sound] at the payload without metadata. *)
Lemma meta_scan_sound_witness :
  FindAllStringSubmatch txmMetaTypeRegex Demo.payload_plain = None.
Proof.
  exact (proj2 (proj2 (meta_scan_sound Demo.payload_plain))
           (conj eq_refl eq_refl)).
Defined.

(** [encoded_decodes_by_hex_name] at the envelope of the instance, with
    the factory that has a function for the registered names only. *)
Lemma encoded_decodes_by_hex_name_witness :
  ∃ out,
    TransactionWithMetaData_MarshalJSON (H := Demo.package_nil)
      Demo.alice_envelope = Ok out ∧
    one_line out ∧
    (decode (H := Demo.package_nil) out txm_zero).2 ≠ Ok tt.
Proof.
  destruct (encoded_decodes_by_hex_name (H := Demo.package_nil)
              Demo.alice_envelope txm_zero Demo.alice
              (js "{'Account':'rAlice','TransactionType':'Payment'}")
              (js "{'TransactionResult':'tecPATH_DRY'}")
              eq_refl eq_refl ltac:(discriminate) eq_refl eq_refl eq_refl)
    as (out & Hout & Hline & _ & Hno).
  - unfold is_bytes. cbn. repeat constructor; lia.
  - exists out. split; [exact Hout |]. split; [exact Hline |].
    apply Hno. exact Demo_nil_factory_names.
Defined.

(** [hash_text_roundtrip] with the lowercase hex of encoding/hex for
    [b2h], from the hashes that hold 0, 1, 2 and so on into the hashes
    that hold zeros. *)
Lemma hash_text_roundtrip_witness :
  ((text ← Hash256_MarshalText hex_EncodeToString 3 ;
    Hash256_UnmarshalText 6 text) Demo2.hashes).1 !! 6%positive
    = Some (Demo2.bytes_upto 32).
Proof.
  refine (proj2 (proj1 (hash_text_roundtrip hex_EncodeToString Demo2.hashes
                   3 6 (Demo2.bytes_upto 32) (repeat 0 32)
                   _ eq_refl eq_refl eq_refl))).
  apply hex_DecodeString_EncodeToString.
  unfold is_bytes. cbn. repeat constructor; lia.
Defined.

(** [VariableLength_text] at the text of three bytes. *)
Lemma VariableLength_text_witness :
  VariableLength_UnmarshalText "0aff10" [] = ([10; 255; 16], Ok tt) ∧
  VariableLength_UnmarshalText "" [1; 2] = ([], Ok tt).
Proof.
  split.
  - refine (proj1 (proj1 (VariableLength_text hex_EncodeToString "0aff10"
                            [] []) _)).
    intros [?|?]; discriminate.
  - refine (proj1 (proj1 (VariableLength_text hex_EncodeToString ""
                            [] [1; 2]) _)).
    intros [?|?]; discriminate.
Defined.

(** [pointer_receiver_overflow] at a text of 66 digits and a hash of 32
    bytes. *)
Lemma pointer_receiver_overflow_witness :
  (Hash256_UnmarshalText 3 (Demo.h64 ++ "00") Demo.hashes).2 =
    Panic (IndexOutOfRange 32 32).
Proof.
  exact (proj1 (pointer_receiver_overflow Demo.hashes 3
                  (repeat 0 Hash256_size) (Demo.h64 ++ "00")
                  eq_refl ltac:(cbn; lia) eq_refl)).
Defined.

(** [native_Amount_roundtrip] at a million drops. *)
Lemma native_Amount_roundtrip_witness :
  Amount_UnmarshalJSON (H := Demo.amounts) (js "'1000000'") Demo.amount_zero
    = (mkAmount (NativeValue 1000000) "XRP" [], Ok tt).
Proof.
  exact (proj2 (native_Amount_roundtrip (H := Demo.amounts)
                  (λ _ _ _, Err (JsonError "unsupported"))
                  (mkAmount (NativeValue 1000000) "USD" [])
                  Demo.amount_zero (JsonError "cannot unmarshal")
                  eq_refl ltac:(unfold maxUint64; cbn; lia) eq_refl)).
Defined.

(** [Amount_UnmarshalJSON_no_panic] at two texts of two bytes, one that is
    no object and one that is. *)
Lemma Amount_UnmarshalJSON_no_panic_witness :
  (Amount_UnmarshalJSON (H := Demo.amounts) "ab" Demo.amount_zero).2
    ≠ Panic (SliceBoundsOutOfRange 1 1) ∧
  (Amount_UnmarshalJSON (H := Demo.amounts) "{}" Demo.amount_zero).2
    ≠ Panic (SliceBoundsOutOfRange 1 1).
Proof.
  split.
  - apply (Amount_UnmarshalJSON_no_panic (H := Demo.amounts) "ab"
             Demo.amount_zero); [cbn; lia | done | done].
  - apply (Amount_UnmarshalJSON_no_panic (H := Demo.amounts) "{}"
             Demo.amount_zero); [cbn; lia | done | done].
Defined.

(** [Account_UnmarshalText_keeps_size] at an address of the account
    version and at one of another version. *)
Lemma Account_UnmarshalText_keeps_size_witness :
  Account_UnmarshalText (H := Demo2.amounts) "rAlice" (repeat 0 20)
    = (Demo2.payload20, Ok tt) ∧
  Account_UnmarshalText (H := Demo2.amounts) "nNode" (repeat 0 20)
    = (repeat 0 20, Err (IncorrectVersion 28)).
Proof.
  destruct (Account_UnmarshalText_keeps_size (H := Demo2.amounts)
              "rAlice" (repeat 0 20)) as (_ & _ & Ha).
  destruct (Account_UnmarshalText_keeps_size (H := Demo2.amounts)
              "nNode" (repeat 0 20)) as (_ & _ & Hn).
  split.
  - exact (proj2 (Ha 0 Demo2.payload20 eq_refl) eq_refl eq_refl).
  - exact (proj1 (Hn 28 Demo2.payload20 eq_refl) ltac:(discriminate)).
Defined.

(** [RippleTime_rejects] at a time with a point and at a time between
    quotes. *)
Lemma RippleTime_rejects_witness :
  RippleTime_UnmarshalJSON "1.5" (time_Unix 0)
    = (time_Unix 0, Err (BadRippleTime "1.5")) ∧
  RippleTime_UnmarshalJSON (quoted "15") (time_Unix 0)
    = (time_Unix 0, Err (BadRippleTime (quoted "15"))).
Proof.
  split.
  - exact (proj2 (RippleTime_rejects "1.5" "." (time_Unix 0))
             eq_refl eq_refl ltac:(discriminate) ltac:(discriminate)).
  - exact (proj2 (RippleTime_rejects (quoted "15") quote (time_Unix 0))
             eq_refl eq_refl ltac:(discriminate) ltac:(discriminate)).
Defined.
